(** * pysrt: the SubRip entry parser/formatter and the file aggregate

  A shallow embedding of [pysrt/srtitem.py] and [pysrt/srtfile.py],
  followed by the properties of the design document that concern them.

  Conventions of the embedding.
  - Python [str] and [unicode] values are [string]s; a character is an
    [ascii] (the code points below 256).  Every character class the
    program tests (digits, white space, the letters of the entry
    pattern, the byte-order marks) lies in that range.
  - Python [int]s are [Z].
  - Objects that the program mutates in place or shares (entries, and
    the list object behind a [UserList]) live in a heap and are referred
    to by address.
  - A raised exception is a value of [exception]; a function that can
    raise returns a [result]. *)

From Stdlib Require Import ZArith Ascii String List Bool Lia DecimalString.
From stdpp Require Import base option list gmap strings sorting.

Local Open Scope Z_scope.

(** ** Python primitives used by the two modules *)
Module Py.

Definition LF : ascii := "010"%char.
Definition CR : ascii := "013"%char.
Definition nl : string := String LF EmptyString.

(** Truth value of a string: non-empty. *)
Definition str_truth (s : string) : bool :=
  match s with EmptyString => false | String _ _ => true end.

(** Truth value of an optional string ([None] or a string). *)
Definition opt_truth (o : option string) : bool :=
  match o with None => false | Some s => str_truth s end.

(** [a or b] on optional strings. *)
Definition or_ (a b : option string) : option string :=
  if opt_truth a then a else b.

Definition code (c : ascii) : N := N_of_ascii c.

(** [unicode.isspace] on one character, restricted to code points < 256. *)
Definition isspace (c : ascii) : bool :=
  let n := code c in
  (((9 <=? n) && (n <=? 13)) || ((28 <=? n) && (n <=? 32))
   || (n =? 133) || (n =? 160))%N.

Fixpoint lstrip (s : string) : string :=
  match s with
  | EmptyString => EmptyString
  | String c s' => if isspace c then lstrip s' else s
  end.

(** [rstrip] drops the longest all-white-space suffix. *)
Fixpoint rstrip (s : string) : string :=
  match s with
  | EmptyString => EmptyString
  | String c s' =>
      match rstrip s' with
      | EmptyString => if isspace c then EmptyString else String c EmptyString
      | r => String c r
      end
  end.

Definition strip (s : string) : string := rstrip (lstrip s).

(** [u''.join(parts)] *)
Definition join (parts : list string) : string :=
  fold_right String.append EmptyString parts.

(** [s.replace(c, by)] for a one-character needle. *)
Fixpoint replace (c : ascii) (by_ : string) (s : string) : string :=
  match s with
  | EmptyString => EmptyString
  | String a s' =>
      if Ascii.eqb a c then by_ +:+ replace c by_ s'
      else String a (replace c by_ s')
  end.

(** ['%s' % n] for an [int]. *)
Definition str_of_int (n : Z) : string := NilZero.string_of_int (Z.to_int n).

(** ['%s' % o] for [None] or a string. *)
Definition str_of_opt (o : option string) : string :=
  match o with None => "None" | Some s => s end.

(** [u.encode('ascii', 'replace')]: characters outside ASCII become '?'. *)
Fixpoint encode_ascii_replace (s : string) : string :=
  match s with
  | EmptyString => EmptyString
  | String c s' =>
      String (if (code c <? 128)%N then c else "?"%char)
             (encode_ascii_replace s')
  end.

(** [s.startswith(p)] *)
Definition startswith (s p : string) : bool := String.prefix p s.

(** [s[:n]] *)
Definition take (n : nat) (s : string) : string := String.substring 0 n s.

Definition isdigit (c : ascii) : bool :=
  ((48 <=? code c) && (code c <=? 57))%N.

Definition digit_value (c : ascii) : Z := Z.of_N (code c) - 48.

(** [int(s)], for the strings the entry pattern can hand to it: a
    non-empty string of decimal digits gives its value; [None] stands for
    the [ValueError] raised on anything else. *)
Fixpoint int_digits (acc : Z) (s : string) : option Z :=
  match s with
  | EmptyString => Some acc
  | String c s' =>
      if isdigit c then int_digits (10 * acc + digit_value c) s' else None
  end.

Definition int (s : string) : option Z :=
  match s with
  | EmptyString => None
  | _ => int_digits 0 s
  end.

(** [unicode.splitlines(True)], on code points below 256: a line ends with
    a line break (LF, VT, FF, CR, FS, GS, RS or NEL), CR LF counting as
    one, and keeps it; a last line without line break is kept as it is. *)
Definition islinebreak (c : ascii) : bool :=
  let n := code c in
  (((10 <=? n) && (n <=? 13)) || ((28 <=? n) && (n <=? 30)) || (n =? 133))%N.

Fixpoint splitlines_from (cur : string) (s : string) : list string :=
  match s with
  | EmptyString => if str_truth cur then [cur] else []
  | String c s' =>
      if islinebreak c then
        match s' with
        | String c' s'' =>
            if Ascii.eqb c CR && Ascii.eqb c' LF
            then (cur +:+ String c (String c' EmptyString))
                   :: splitlines_from EmptyString s''
            else (cur +:+ String c EmptyString) :: splitlines_from EmptyString s'
        | EmptyString => [cur +:+ String c EmptyString]
        end
      else splitlines_from (cur +:+ String c EmptyString) s'
  end.

Definition splitlines (s : string) : list string :=
  splitlines_from EmptyString s.

End Py.

(** ** The fragment of Python's [re] that the entry pattern uses

  Patterns are kept as syntax trees, named after the opcodes of
  [sre_parse].  Every quantifier of the entry pattern is applied to a
  single-character item, so [Max_repeat] carries a character class.
  The matcher is a backtracking one, written with a continuation for
  "the rest of the pattern"; repetition is greedy. *)
Module Re.

Inductive at_code :=
| At_beginning_string     (* \A *)
| At_end_string           (* \Z *)
| At_beginning_line       (* ^ under MULTILINE *)
| At_end_line.            (* $ under MULTILINE *)

Inductive pattern :=
| Literal (c : ascii)
| In_ (cls : ascii → bool)
| Max_repeat (lo : nat) (hi : option nat) (cls : ascii → bool)
| At (a : at_code)
| Subpattern (name : string) (p : pattern)
| Cat (p q : pattern).

(** Categories and classes. *)
Definition category_digit : ascii → bool := Py.isdigit.            (* \d *)
Definition category_space (c : ascii) : bool :=                    (* \s *)
  let n := Py.code c in (((9 <=? n) && (n <=? 13)) || (n =? 32))%N.
Definition any_all (_ : ascii) : bool := true.          (* . under DOTALL *)
Definition one_of (cs : list ascii) (c : ascii) : bool :=
  existsb (Ascii.eqb c) cs.

(** A position in the subject: the character just before it, if any,
    and what remains. *)
Record cursor := Cursor { prev : option ascii; rest : string }.

Definition groups := gmap string string.
Definition cont := cursor → groups → option groups.

Definition at_ (a : at_code) (cur : cursor) : bool :=
  match a with
  | At_beginning_string =>
      match prev cur with None => true | Some _ => false end
  | At_end_string =>
      match rest cur with EmptyString => true | _ => false end
  | At_beginning_line =>
      match prev cur with None => true | Some c => Ascii.eqb c Py.LF end
  | At_end_line =>
      match rest cur with
      | EmptyString => true
      | String c _ => Ascii.eqb c Py.LF
      end
  end.

(** Greedy [cls{lo,hi}]: take as many as allowed, then give back one at
    a time until the continuation succeeds. *)
Fixpoint max_repeat (cls : ascii → bool) (lo : nat) (hi : option nat)
    (pv : option ascii) (s : string) (g : groups) (k : cont)
    : option groups :=
  let stop :=
    match lo with O => k (Cursor pv s) g | S _ => None end in
  match hi with
  | Some O => stop
  | _ =>
      match s with
      | String c s' =>
          if cls c then
            match max_repeat cls (Nat.pred lo) (Nat.pred <$> hi)
                             (Some c) s' g k with
            | Some r => Some r
            | None => stop
            end
          else stop
      | EmptyString => stop
      end
  end.

(** The text between two positions of the same subject. *)
Definition consumed (from to : cursor) : string :=
  Py.take (String.length (rest from) - String.length (rest to))%nat
          (rest from).

Fixpoint exec (p : pattern) (cur : cursor) (g : groups) (k : cont)
    : option groups :=
  match p with
  | Literal c =>
      match rest cur with
      | String a s' => if Ascii.eqb a c then k (Cursor (Some a) s') g else None
      | EmptyString => None
      end
  | In_ cls =>
      match rest cur with
      | String a s' => if cls a then k (Cursor (Some a) s') g else None
      | EmptyString => None
      end
  | Max_repeat lo hi cls => max_repeat cls lo hi (prev cur) (rest cur) g k
  | At a => if at_ a cur then k cur g else None
  | Subpattern name q =>
      exec q cur g (λ cur' g', k cur' (<[name := consumed cur cur']> g'))
  | Cat q r => exec q cur g (λ cur' g', exec r cur' g' k)
  end.

(** [compiled.match(s)]: anchored at the start of [s]; the result is the
    match's [groupdict()]. *)
Definition match_ (p : pattern) (s : string) : option groups :=
  exec p (Cursor None s) ∅ (λ _ g, Some g).

(** The character before the position reached by reading [u]. *)
Fixpoint advance (pv : option ascii) (u : string) : option ascii :=
  match u with
  | EmptyString => pv
  | String c u' => advance (Some c) u'
  end.

(** [reads p u upd]: at any position whose remaining text starts with [u],
    [p] consumes exactly [u], changes the groups by [upd], and the outcome
    is that of the rest of the pattern. *)
Definition reads (p : pattern) (u : string) (upd : groups → groups) : Prop :=
  ∀ pv tail g k,
    exec p (Cursor pv (u +:+ tail)) g k
    = k (Cursor (advance pv u) tail) (upd g).

End Re.

(** ** Exceptions and results *)

(** A member of an exception's [args] tuple. *)
Inductive pyval :=
| PNone
| PStr (s : string)
| PInt (n : Z).

Inductive exc_class :=
| InvalidItem          (* pysrt.srtexc.InvalidItem *)
| InvalidTimeString    (* raised by SubRipTime.from_string *)
| ValueError
| KeyError
| IndexError
| AttributeError
| IOError
| UnicodeError.

Record exception := Exc { cls : exc_class; args : list pyval }.

#[global] Instance exc_class_eq_dec : EqDecision exc_class.
Proof. solve_decision. Defined.

Inductive result (A : Type) :=
| Ok (a : A)
| Raise (e : exception).
Arguments Ok {A} a.
Arguments Raise {A} e.

#[global] Instance result_ret : MRet result := λ A a, Ok a.
#[global] Instance result_bind : MBind result := λ A B f r,
  match r with Ok a => f a | Raise e => Raise e end.

Definition or_raise {A} (o : option A) (e : exception) : result A :=
  match o with Some a => Ok a | None => Raise e end.

(** ** Time values *)

(** Modelled from the spec: [pysrt/srttime.py] (class [SubRipTime]) is not
    among the sources.  Section 3 of the design document makes a Time Value
    an integer ordinal of milliseconds shown through four components;
    section 4.1 fixes the accepted text [DD:DD:DD{,|.}DDD], the rendered
    text [HH:MM:SS,mmm], the order (by ordinal) and the values that coerce
    to a Time Value. *)
Module SubRipTime.

Record t := Make { ordinal : Z }.

Definition SECONDS_RATIO : Z := 1000.
Definition MINUTES_RATIO : Z := SECONDS_RATIO * 60.
Definition HOURS_RATIO : Z := MINUTES_RATIO * 60.

Definition from_components (h m s ms : Z) : t :=
  Make (h * HOURS_RATIO + m * MINUTES_RATIO + s * SECONDS_RATIO + ms).

Definition hours (x : t) : Z := ordinal x / HOURS_RATIO.
Definition minutes (x : t) : Z := (ordinal x / MINUTES_RATIO) mod 60.
Definition seconds (x : t) : Z := (ordinal x / SECONDS_RATIO) mod 60.
Definition milliseconds (x : t) : Z := ordinal x mod 1000.

(** ['%0wd' % n] *)
Definition zero_fill (w : nat) (n : Z) : string :=
  let digits := Py.str_of_int (Z.abs n) in
  let sign := if n <? 0 then "-" else "" in
  let width := (w - String.length sign)%nat in
  sign +:+ Py.join (replicate (width - String.length digits) "0") +:+ digits.

(** [unicode(time)]: always a comma before the milliseconds. *)
Definition to_string (x : t) : string :=
  zero_fill 2 (hours x) +:+ ":" +:+ zero_fill 2 (minutes x) +:+ ":" +:+
  zero_fill 2 (seconds x) +:+ "," +:+ zero_fill 3 (milliseconds x).

Definition two (a b : ascii) : Z := 10 * Py.digit_value a + Py.digit_value b.

(** [SubRipTime.from_string(text)]; [None] stands for the parse error. *)
Definition parse (s : string) : option t :=
  match list_ascii_of_string s with
  | [h1; h2; c1; m1; m2; c2; s1; s2; sep; f1; f2; f3] =>
      if forallb Py.isdigit [h1; h2; m1; m2; s1; s2; f1; f2; f3]
         && Ascii.eqb c1 ":" && Ascii.eqb c2 ":"
         && (Ascii.eqb sep "," || Ascii.eqb sep ".")
      then Some (from_components (two h1 h2) (two m1 m2) (two s1 s2)
                                 (10 * two f1 f2 + Py.digit_value f3))
      else None
  | _ => None
  end.

Definition from_string (s : string) : result t :=
  or_raise (parse s) (Exc InvalidTimeString [PStr s]).

(** [cmp(a, b)] as -1, 0 or 1. *)
Definition cmp (a b : t) : Z :=
  match ordinal a ?= ordinal b with Lt => -1 | Eq => 0 | Gt => 1 end.

(** A value that coerces to a Time Value: an existing one or a plain
    integer ordinal.  (The tuple and string forms of section 4.1 are not
    needed by the aggregate's operations below.) *)
Inductive coercible :=
| OfTime (x : t)
| OfInt (n : Z).

Definition coerce (v : coercible) : t :=
  match v with OfTime x => x | OfInt n => Make n end.

Definition lt (a : t) (b : coercible) : bool := ordinal a <? ordinal (coerce b).
Definition gt (a : t) (b : coercible) : bool := ordinal a >? ordinal (coerce b).

End SubRipTime.

(** ** Entries: [pysrt/srtitem.py] *)
Module SubRipItem.

Import Re.

Record t := Make {
  index : Z;
  start : SubRipTime.t;
  end_ : SubRipTime.t;
  text : string
}.

(** [TIME_PATTERN = r'\d{2}:\d{2}:\d{2}[,\.]\d{3}'] *)
Definition TIME_PATTERN : pattern :=
  Cat (Max_repeat 2 (Some 2%nat) category_digit)
 (Cat (Literal ":")
 (Cat (Max_repeat 2 (Some 2%nat) category_digit)
 (Cat (Literal ":")
 (Cat (Max_repeat 2 (Some 2%nat) category_digit)
 (Cat (In_ (one_of [","; "."]%char))
      (Max_repeat 3 (Some 3%nat) category_digit)))))).

(** The three adjacent literals of [ITEM_PATTERN].  Python joins adjacent
    string literals with nothing in between. *)

(** First literal: [\A], the group [index] holding [\d+], then [$]. *)
Definition ITEM_PATTERN_index : pattern :=
  Cat (At At_beginning_string)
 (Cat (Subpattern "index" (Max_repeat 1 None category_digit))
      (At At_end_line)).

(** Second literal: [^], the group [start] holding the time pattern,
    [\s-->\s], the group [end] holding the time pattern, any number of
    characters of the class [\ XY\:\d], then [$]. *)
Definition annotation_class (c : ascii) : bool :=
  one_of [" "; "X"; "Y"; ":"]%char c || category_digit c.

Definition ITEM_PATTERN_timecodes : pattern :=
  Cat (At At_beginning_line)
 (Cat (Subpattern "start" TIME_PATTERN)
 (Cat (In_ category_space)
 (Cat (Literal "-") (Cat (Literal "-") (Cat (Literal ">")
 (Cat (In_ category_space)
 (Cat (Subpattern "end" TIME_PATTERN)
 (Cat (Max_repeat 0 None annotation_class)
      (At At_end_line))))))))).

(** Third literal: [^], the group [text] holding dot-star, then [\Z]. *)
Definition ITEM_PATTERN_text : pattern :=
  Cat (At At_beginning_line)
 (Cat (Subpattern "text" (Max_repeat 0 None any_all))
      (At At_end_string)).

(** [RE_ITEM = re.compile(ITEM_PATTERN, re.DOTALL | re.MULTILINE)] *)
Definition RE_ITEM : pattern :=
  Cat ITEM_PATTERN_index (Cat ITEM_PATTERN_timecodes ITEM_PATTERN_text).

(** [ITEM_PATTERN = u'%s\n%s --> %s\n%s\n'] applied to
    [(index, start, end, text)] *)
Definition __unicode__ (self : t) : string :=
  Py.str_of_int (index self) +:+ Py.nl +:+
  SubRipTime.to_string (start self) +:+ " --> " +:+
  SubRipTime.to_string (end_ self) +:+ Py.nl +:+
  text self +:+ Py.nl.

(** [cmp(self.start, other.start) or cmp(self.end, other.end)] *)
Definition __cmp__ (self other : t) : Z :=
  let c := SubRipTime.cmp (start self) (start other) in
  if c =? 0 then SubRipTime.cmp (end_ self) (end_ other) else c.

Definition group (data : groups) (name : string) : result string :=
  or_raise (data !! name) (Exc KeyError [PStr name]).

Definition from_string (source : string) : result t :=
  match match_ RE_ITEM (Py.replace Py.CR "" source) with
  | None => Raise (Exc InvalidItem [PStr source])
  | Some data =>
      s ← group data "start" ;
      start ← SubRipTime.from_string s ;
      e ← group data "end" ;
      end_ ← SubRipTime.from_string e ;
      (* the constructor: int(index), coerce(start), coerce(end), unicode(text) *)
      i ← group data "index" ;
      index ← or_raise (Py.int i) (Exc ValueError [PStr i]) ;
      text ← group data "text" ;
      Ok (Make index start end_ text)
  end.

End SubRipItem.

#[global] Instance SubRipItem_inhabited : Inhabited SubRipItem.t :=
  populate (SubRipItem.Make 0 (SubRipTime.Make 0) (SubRipTime.Make 0) "").

(** ** The object store

    Entries are objects: an aggregate holds references to them, and two
    positions of one aggregate, or two aggregates, may hold the same
    entry.  The [data] attribute of a [UserList] is a reference to a list
    object.  [stderr] records the strings written to [sys.stderr]. *)
Definition item_ref := nat.
Definition list_ref := nat.

Record state := State {
  items : list SubRipItem.t;
  lists : list (list item_ref);
  stderr : list string
}.

Definition get_item (σ : state) (r : item_ref) : SubRipItem.t := items σ !!! r.
Definition get_list (σ : state) (r : list_ref) : list item_ref := lists σ !!! r.

Definition set_lists (σ : state) (ls : list (list item_ref)) : state :=
  State (items σ) ls (stderr σ).
Definition set_items (σ : state) (its : list SubRipItem.t) : state :=
  State its (lists σ) (stderr σ).
Definition set_stderr (σ : state) (err : list string) : state :=
  State (items σ) (lists σ) err.

(** A new entry object. *)
Definition new_item (σ : state) (x : SubRipItem.t) : state * item_ref :=
  (set_items σ (items σ ++ [x]), length (items σ)).

(** A new list object: [list(iterable)]. *)
Definition new_list (σ : state) (l : list item_ref) : state * list_ref :=
  (set_lists σ (lists σ ++ [l]), length (lists σ)).

(** [sys.stderr.write(s)] *)
Definition stderr_write (σ : state) (s : string) : state :=
  set_stderr σ (stderr σ ++ [s]).

(** [enumerate(l)] *)
Definition enumerate {A} (l : list A) : list (nat * A) :=
  zip (seq 0 (length l)) l.

(** [list.sort()]: a stable sort that only asks whether [x < y]. *)
Fixpoint sort_insert {A} (lt : A → A → bool) (x : A) (l : list A) : list A :=
  match l with
  | [] => [x]
  | y :: l' => if lt y x then y :: sort_insert lt x l' else x :: l
  end.

Definition list_sort {A} (lt : A → A → bool) (l : list A) : list A :=
  fold_right (sort_insert lt) [] l.

(** What the program takes from its platform: [os.linesep],
    [os.path.abspath], the bytes [open(path)] reads ([None]: the file
    cannot be opened), the arguments (errno, message) of the [IOError]
    that [open(path)] raises in that case, the codecs behind
    [unicode.encode], and the truth value of a [SubRipTime] object (fixed
    by [srttime.py], which is not among the sources). *)
Record platform := Platform {
  linesep : string;
  abspath : string → string;
  file_bytes : string → option string;
  open_error : string → Z * string;
  encode : option string → string → result string;
  time_truth : SubRipTime.t → bool
}.

(** ** The aggregate: [pysrt/srtfile.py] *)
Module SubRipFile.

Record t := Make {
  data : list_ref;
  _eol : option string;
  path : option string;
  encoding : option string
}.

Definition set_data (self : t) (r : list_ref) : t :=
  Make r (_eol self) (path self) (encoding self).

Definition ERROR_PASS : Z := 0.
Definition ERROR_LOG : Z := 1.
Definition ERROR_RAISE : Z := 2.

Definition DEFAULT_ENCODING : string := "utf_8".

Definition BOM_UTF32_LE : string :=
  String "255" (String "254" (String "000" (String "000" EmptyString))).
Definition BOM_UTF32_BE : string :=
  String "000" (String "000" (String "254" (String "255" EmptyString))).
Definition BOM_UTF16_LE : string := String "255" (String "254" EmptyString).
Definition BOM_UTF16_BE : string := String "254" (String "255" EmptyString).
Definition BOM_UTF8 : string :=
  String "239" (String "187" (String "191" EmptyString)).

Definition BOMS : list (string * string) :=
  [ (BOM_UTF32_LE, "utf_32_le");
    (BOM_UTF32_BE, "utf_32_be");
    (BOM_UTF16_LE, "utf_16_le");
    (BOM_UTF16_BE, "utf_16_be");
    (BOM_UTF8, "utf_8") ].

(** [max(len(bom) for bom, encoding in BOMS)] *)
Definition BIGGER_BOM : nat :=
  foldr Nat.max 0%nat (map (λ be, String.length (fst be)) BOMS).

Section WithPlatform.
Variable os : platform.

(** [self._eol or os.linesep] *)
Definition _get_eol (self : t) : string :=
  match _eol self with
  | Some s => if Py.str_truth s then s else linesep os
  | None => linesep os
  end.

(** [self._eol = self._eol or eol] *)
Definition _set_eol (self : t) (eol : option string) : t :=
  Make (data self) (Py.or_ (_eol self) eol) (path self) (encoding self).

Definition pyval_of_path (p : option string) : pyval :=
  match p with None => PNone | Some s => PStr s end.

(** [_handle_error(error, error_handling, path, index)]: the state after
    the call, and the exception it raises, if any. *)
Definition _handle_error (error : exception) (error_handling : option Z)
    (path : option string) (index : nat) (σ : state)
    : state * option exception :=
  let path := if Py.opt_truth path then abspath os <$> path else path in
  if decide (error_handling = Some ERROR_RAISE) then
    (σ, Some (Exc (cls error)
                  ([pyval_of_path path; PInt (Z.of_nat index)] ++ args error)))
  else if decide (error_handling = Some ERROR_LOG) then
    let σ := stderr_write σ
      ("PySRT-InvalidItem(" +:+ Py.str_of_opt path +:+ ":" +:+
       Py.str_of_int (Z.of_nat index) +:+ "): " +:+ Py.nl) in
    match args error with
    | PStr source :: _ =>
        let σ := stderr_write σ (Py.encode_ascii_replace source) in
        (stderr_write σ Py.nl, None)
    | _ :: _ => (σ, Some (Exc AttributeError [PStr "encode"]))
    | [] => (σ, Some (Exc IndexError [PStr "tuple index out of range"]))
    end
  else (σ, None).

(** [self.append(item)]: [UserList.append] appends to the list object. *)
Definition append (self : t) (r : item_ref) (σ : state) : state :=
  set_lists σ (alter (λ l, l ++ [r]) (data self) (lists σ)).

(** The body of the [for] loop of [read], over the enumerated lines that
    remain; [string_buffer] is the pending block. *)
Fixpoint read_loop (self : t) (error_handling : option Z)
    (lines : list (nat * string)) (string_buffer : list string)
    (σ : state) : state * option exception :=
  match lines with
  | [] => (σ, None)
  | (index, line) :: lines' =>
      if Py.str_truth (Py.strip line) then
        read_loop self error_handling lines' (string_buffer ++ [line]) σ
      else
        let source := Py.join string_buffer in
        if Py.str_truth (Py.strip source) then
          match SubRipItem.from_string source with
          | Ok item =>
              let '(σ, r) := new_item σ item in
              read_loop self error_handling lines' [] (append self r σ)
          | Raise error =>
              if decide (cls error = InvalidItem) then
                match _handle_error error error_handling (path self) index σ
                with
                | (σ, None) => read_loop self error_handling lines' [] σ
                | (σ, Some e) => (σ, Some e)
                end
              else (σ, Some error)
          end
        else read_loop self error_handling lines' [] σ
  end.

(** [read(source_file, error_handling)]: [source_file] is the sequence of
    lines the stream yields. *)
Definition read (self : t) (source_file : list string)
    (error_handling : option Z) (σ : state) : state * option exception :=
  read_loop self error_handling (enumerate (source_file ++ [Py.nl])) [] σ.

(** The [for] loop of [_detect_encoding]. *)
Fixpoint first_bom (boms : list (string * string)) (first_chars : string)
    : option string :=
  match boms with
  | [] => None
  | (bom, encoding) :: boms' =>
      if Py.startswith first_chars bom then Some encoding
      else first_bom boms' first_chars
  end.

Definition _detect_encoding (path : string) : result string :=
  match file_bytes os path with
  | None =>
      let '(errno, message) := open_error os path in
      Raise (Exc IOError [PInt errno; PStr message])
  | Some content =>
      let first_chars := Py.take BIGGER_BOM content in
      match first_bom BOMS first_chars with
      | Some encoding => Ok encoding
      | None => Ok DEFAULT_ENCODING
      end
  end.

(** The first statement of [_open_unicode_file]:
    [encoding = claimed_encoding or cls._detect_encoding(path)]. *)
Definition _open_unicode_file_encoding (path : string)
    (claimed_encoding : option string) : result string :=
  match claimed_encoding with
  | Some e => if Py.str_truth e then Ok e else _detect_encoding path
  | None => _detect_encoding path
  end.

(** Truth value of a bound handed to [slice]. *)
Definition bound_truth (b : option SubRipTime.coercible) : bool :=
  match b with
  | None => false
  | Some (SubRipTime.OfTime x) => time_truth os x
  | Some (SubRipTime.OfInt n) => negb (n =? 0)
  end.

(** One [if bound: clone.data = (i for i in clone.data if ...)] step;
    [test] is the comparison of an entry with the bound. *)
Definition slice_step (σ : state) (b : option SubRipTime.coercible)
    (test : SubRipItem.t → SubRipTime.coercible → bool)
    (d : list item_ref) : list item_ref :=
  match b with
  | Some v =>
      if bound_truth b then filter (λ i, test (get_item σ i) v = true) d
      else d
  | None => d
  end.

Definition slice (self : t)
    (starts_before starts_after ends_before ends_after
       : option SubRipTime.coercible)
    (σ : state) : state * t :=
  (* copy(self): a new aggregate object with the same attribute values,
     so its data is the list object of self *)
  let clone := self in
  let d := get_list σ (data clone) in
  let d := slice_step σ starts_before
             (λ i v, SubRipTime.lt (SubRipItem.start i) v) d in
  let d := slice_step σ starts_after
             (λ i v, SubRipTime.gt (SubRipItem.start i) v) d in
  let d := slice_step σ ends_before
             (λ i v, SubRipTime.lt (SubRipItem.end_ i) v) d in
  let d := slice_step σ ends_after
             (λ i v, SubRipTime.gt (SubRipItem.end_ i) v) d in
  let '(σ, r) := new_list σ d in
  (σ, set_data clone r).

(** [a < b] on entries, through [__cmp__]. *)
Definition item_lt (σ : state) (a b : item_ref) : bool :=
  SubRipItem.__cmp__ (get_item σ a) (get_item σ b) <? 0.

(** [item.index = value] *)
Definition set_index (σ : state) (r : item_ref) (value : Z) : state :=
  set_items σ
    (alter (λ x, SubRipItem.Make value (SubRipItem.start x)
                   (SubRipItem.end_ x) (SubRipItem.text x))
           r (items σ)).

Definition clean_indexes (self : t) (σ : state) : state :=
  (* self.sort() sorts the list object in place *)
  let σ := set_lists σ (alter (list_sort (item_lt σ)) (data self) (lists σ)) in
  foldl (λ σ '(index, item), set_index σ item (Z.of_nat index + 1))
        σ (enumerate (get_list σ (data self))).

(** The [for] loop of [write_into]; [io] is what the sink has received. *)
Fixpoint write_loop (encoding : option string) (output_eol : string)
    (σ : state) (its : list item_ref) (io : list string)
    : list string * option exception :=
  match its with
  | [] => (io, None)
  | item :: its' =>
      let string_repr := SubRipItem.__unicode__ (get_item σ item) in
      let string_repr :=
        if negb (String.eqb output_eol Py.nl)
        then Py.replace Py.LF output_eol string_repr
        else string_repr in
      match encode os encoding string_repr with
      | Ok bytes => write_loop encoding output_eol σ its' (io ++ [bytes])
      | Raise e => (io, Some e)
      end
  end.

Definition write_into (self : t) (io : list string)
    (encoding eol : option string) (σ : state)
    : list string * option exception :=
  let encoding := Py.or_ encoding (SubRipFile.encoding self) in
  let output_eol :=
    match eol with
    | Some e => if Py.str_truth e then e else _get_eol self
    | None => _get_eol self
    end in
  write_loop encoding output_eol σ (get_list σ (data self)) io.

(** [SubRipFile(items, eol, path, encoding)]: [UserList.__init__] copies
    [items or []] into a list object of its own.  [items] is the list
    object handed over, if any. *)
Definition __init__ (items : option list_ref) (eol path encoding : option string)
    (σ : state) : state * t :=
  let initlist :=
    match items with
    | Some r => get_list σ r
    | None => []
    end in
  let '(σ, r) := new_list σ initlist in
  (σ, Make r eol path encoding).

(** [SubRipFile.from_string(source, **kwargs)]: [error_handling] is what
    [kwargs.pop('error_handling', None)] gives, the other arguments are
    the keywords left for the constructor.  The aggregate is returned
    unless [read] raises. *)
Definition from_string (source : string) (error_handling : option Z)
    (items : option list_ref) (eol path encoding : option string)
    (σ : state) : state * result t :=
  let '(σ, new_file) := __init__ items eol path encoding σ in
  match read new_file (Py.splitlines source) error_handling σ with
  | (σ, None) => (σ, Ok new_file)
  | (σ, Some e) => (σ, Raise e)
  end.

End WithPlatform.
End SubRipFile.

(** ** Reading, block by block

    The design document describes [read] in two stages: the stream is cut
    into blocks at blank lines (a blank line is appended so that a last
    block is flushed), then each block is parsed and the error policy is
    applied.  The definitions below follow that description; each block
    comes with the index of the line that ended it, which is the number
    [read] hands to [_handle_error]. *)
Fixpoint blocks_from (lines : list (nat * string)) (pending : list string)
    : list (nat * string) :=
  match lines with
  | [] => []
  | (i, line) :: lines' =>
      if Py.str_truth (Py.strip line) then
        blocks_from lines' (pending ++ [line])
      else
        (if Py.str_truth (Py.strip (Py.join pending))
         then [(i, Py.join pending)] else [])
        ++ blocks_from lines' []
  end.

Definition blocks (stream : list string) : list (nat * string) :=
  blocks_from (enumerate (stream ++ [Py.nl])) [].

(** A blank line, and what it means for [b] to be the block ended by
    line [i] of [lines]: line [i] is blank, and [b] is the text of the
    non-blank lines [j], ..., [i - 1], where line [j] is the first line or
    follows a blank line. *)
Definition blank (line : string) : Prop :=
  Py.str_truth (Py.strip line) = false.

Definition block_ended_at (lines : list string) (i : nat) (b : string) : Prop :=
  ∃ j, (j < i)%nat
    ∧ (∃ z, lines !! i = Some z ∧ blank z)
    ∧ Forall (λ l, ¬ blank l) (take (i - j) (drop j lines))
    ∧ b = Py.join (take (i - j) (drop j lines))
    ∧ (j = 0%nat ∨ ∃ z, lines !! (j - 1)%nat = Some z ∧ blank z).

(** What [read] does with the blocks, one after the other. *)
Fixpoint handle_blocks (os : platform) (self : SubRipFile.t)
    (error_handling : option Z) (bs : list (nat * string)) (σ : state)
    : state * option exception :=
  match bs with
  | [] => (σ, None)
  | (index, source) :: bs' =>
      match SubRipItem.from_string source with
      | Ok item =>
          let '(σ, r) := new_item σ item in
          handle_blocks os self error_handling bs' (SubRipFile.append self r σ)
      | Raise error =>
          if decide (cls error = InvalidItem) then
            match SubRipFile._handle_error os error error_handling
                    (SubRipFile.path self) index σ with
            | (σ, None) => handle_blocks os self error_handling bs' σ
            | (σ, Some e) => (σ, Some e)
            end
          else (σ, Some error)
      end
  end.

(** The entries of the blocks that parse. *)
Definition parsed (bs : list (nat * string)) : list SubRipItem.t :=
  omap (λ ib, match SubRipItem.from_string ib.2 with
              | Ok item => Some item
              | Raise _ => None
              end) bs.



(** The source locator as diagnostics show it. *)
Definition locator (os : platform) (path : option string) : option string :=
  if Py.opt_truth path then abspath os <$> path else path.

(** One diagnostic: the three strings written for a rejected block. *)
Definition diagnostic (os : platform) (path : option string) (index : nat)
    (source : string) : list string :=
  [ "PySRT-InvalidItem(" +:+ Py.str_of_opt (locator os path) +:+ ":" +:+
      Py.str_of_int (Z.of_nat index) +:+ "): " +:+ Py.nl;
    Py.encode_ascii_replace source;
    Py.nl ].

(** The diagnostics of the blocks that do not parse. *)
Definition diagnostics (os : platform) (path : option string)
    (bs : list (nat * string)) : list string :=
  bs ≫= (λ ib, match SubRipItem.from_string ib.2 with
               | Ok _ => []
               | Raise _ => diagnostic os path ib.1 ib.2
               end).

(** The store once the entries [xs] are allocated and appended to the
    list object of [self]. *)
Definition with_entries (self : SubRipFile.t) (xs : list SubRipItem.t)
    (σ : state) : state :=
  State (items σ ++ xs)
        (alter (λ l, l ++ seq (length (items σ)) (length xs))
               (SubRipFile.data self) (lists σ))
        (stderr σ).

(** ** The order of entries

    Section 4.2: A precedes B iff A.start < B.start, or the starts are
    equal and A.end < B.end; [entry_le] is the non-strict version. *)
Definition entry_le (x y : SubRipItem.t) : Prop :=
  SubRipTime.ordinal (SubRipItem.start x) < SubRipTime.ordinal (SubRipItem.start y)
  ∨ (SubRipTime.ordinal (SubRipItem.start x) = SubRipTime.ordinal (SubRipItem.start y)
     ∧ SubRipTime.ordinal (SubRipItem.end_ x) ≤ SubRipTime.ordinal (SubRipItem.end_ y)).

(** The entries of an aggregate, in collection order. *)
Definition entries (σ : state) (self : SubRipFile.t) : list SubRipItem.t :=
  get_item σ <$> get_list σ (SubRipFile.data self).

(** The [for] loop of [clean_indexes] over the references [l], the first
    of which is numbered [n + 1]. *)
Definition number_from (σ : state) (n : nat) (l : list item_ref) : state :=
  foldl (λ σ '(index, item), SubRipFile.set_index σ item (Z.of_nat index + 1))
        σ (zip (seq n (length l)) l).

(** ** Time windows

    A bound that is present asks for a strict inequality; a bound that is
    absent asks for nothing. *)
Definition before (b : option SubRipTime.coercible) (x : SubRipTime.t) : Prop :=
  match b with
  | None => True
  | Some v => SubRipTime.ordinal x < SubRipTime.ordinal (SubRipTime.coerce v)
  end.

Definition after (b : option SubRipTime.coercible) (x : SubRipTime.t) : Prop :=
  match b with
  | None => True
  | Some v => SubRipTime.ordinal (SubRipTime.coerce v) < SubRipTime.ordinal x
  end.

Definition selected
    (starts_before starts_after ends_before ends_after
       : option SubRipTime.coercible)
    (x : SubRipItem.t) : Prop :=
  before starts_before (SubRipItem.start x)
  ∧ after starts_after (SubRipItem.start x)
  ∧ before ends_before (SubRipItem.end_ x)
  ∧ after ends_after (SubRipItem.end_ x).

#[global] Instance before_dec b x : Decision (before b x).
Proof. destruct b; cbn; apply _. Defined.
#[global] Instance after_dec b x : Decision (after b x).
Proof. destruct b; cbn; apply _. Defined.
#[global] Instance selected_dec sb sa eb ea x : Decision (selected sb sa eb ea x).
Proof. unfold selected. apply _. Defined.

(** A bound that [slice] takes into account: absent, or present with a
    true truth value. *)
Definition effective (os : platform) (b : option SubRipTime.coercible) : Prop :=
  b = None ∨ SubRipFile.bound_truth os b = true.

(** ** Serialization

    The text written for one entry under the newline convention [eol]. *)
Definition render (eol : string) (x : SubRipItem.t) : string :=
  if String.eqb eol Py.nl then SubRipItem.__unicode__ x
  else Py.replace Py.LF eol (SubRipItem.__unicode__ x).

(** ** Further notions used by the properties *)

(** Two entries at the same place in the order by (start, end). *)
Definition same_key (x y : SubRipItem.t) : Prop :=
  SubRipTime.ordinal (SubRipItem.start x) = SubRipTime.ordinal (SubRipItem.start y)
  ∧ SubRipTime.ordinal (SubRipItem.end_ x) = SubRipTime.ordinal (SubRipItem.end_ y).

#[global] Instance same_key_dec x y : Decision (same_key x y).
Proof. unfold same_key. apply _. Defined.

(** The first non-empty string of a sequence of values assigned to [eol]. *)
Fixpoint first_set (l : list (option string)) : option string :=
  match l with
  | [] => None
  | o :: l' => if Py.opt_truth o then o else first_set l'
  end.

(** ** A platform and a store for the examples *)
Definition posix : platform :=
  Platform Py.nl (λ p, "/srv/" +:+ p) (λ _, None)
    (λ _, (2, "No such file or directory")) (λ _ s, Ok s) (λ _, true).

Definition subs : SubRipFile.t :=
  SubRipFile.Make 0%nat None (Some "subs.srt") (Some "utf-8").

Definition empty_store : state := State [] [[]] [].

Definition line (s : string) : string := s +:+ Py.nl.

(** An entry and its formatted form. *)
Definition hello : SubRipItem.t :=
  SubRipItem.Make 1 (SubRipTime.Make 1000) (SubRipTime.Make 2000) "Hello".

(** A stream of two blocks, neither of which has the shape of an entry:
    [junk] ends at line 1, [more junk] at the line appended by [read],
    line 4. *)
Definition junk_stream : list string :=
  [line "junk"; line ""; line ""; line "more junk"].

(** The stream of the design document's error-policy example: three
    blocks, the second of which is not an entry. *)
Definition first_block : string :=
  line "1" +:+ line "00:00:01,000 --> 00:00:02,000" +:+ line "Hello".
Definition third_block : string :=
  line "3" +:+ line "00:00:05,000 --> 00:00:06,000" +:+ line "Bye".
Definition three_blocks : list string :=
  [line "1"; line "00:00:01,000 --> 00:00:02,000"; line "Hello"; line "";
   line "garbage"; line "";
   line "3"; line "00:00:05,000 --> 00:00:06,000"; line "Bye"].


(** A timecode line with annotations the pattern knows, and one with a
    word. *)
Definition annotated_line : string :=
  "00:00:01,000 --> 00:00:02,000 X1:100 Y1:200".
Definition worded_line : string :=
  "00:00:01,000 --> 00:00:02,000 abc".

(** Two entries out of order in a store; [twice] holds one entry at two
    positions. *)
Definition late : SubRipItem.t :=
  SubRipItem.Make 7 (SubRipTime.Make 3500) (SubRipTime.Make 4250) "World".
Definition two_entries : state := State [late; hello] [[0; 1]%nat] [].
Definition twice : state := State [hello] [[0; 0]%nat] [].

(** A platform whose codec refuses characters outside ASCII, and a store
    whose second entry has such a character (e with acute accent). *)
Definition ascii_codec : platform :=
  Platform Py.nl (λ p, p) (λ _, None)
    (λ _, (2, "No such file or directory"))
    (λ _ s, if forallb (λ c, (Py.code c <? 128)%N) (list_ascii_of_string s)
            then Ok s else Raise (Exc UnicodeError [PStr s]))
    (λ _, true).
Definition accented : SubRipItem.t :=
  SubRipItem.Make 2 (SubRipTime.Make 3500) (SubRipTime.Make 4250)
    (String "233" "t" +:+ String "233" EmptyString).
Definition three_entries : state :=
  State [hello; accented; late] [[0; 1; 2]%nat] [].

(** Two entries with the same times, the later one first in the
    collection. *)
Definition tie : SubRipItem.t :=
  SubRipItem.Make 9 (SubRipTime.Make 1000) (SubRipTime.Make 2000) "Again".
Definition with_tie : state := State [late; tie; hello] [[0; 1; 2]%nat] [].

(** A platform whose file [bom.srt] starts with FF FE 00 00. *)
Definition with_file : platform :=
  Platform Py.nl (λ p, p)
    (λ p, if String.eqb p "bom.srt"
          then Some (SubRipFile.BOM_UTF32_LE +:+ "1") else None)
    (λ _, (2, "No such file or directory"))
    (λ _ s, Ok s) (λ _, true).

(** * Properties *)

(** ** The entry pattern *)
Section EntryPattern.
Import Re SubRipItem.

Lemma digit_not_LF c : category_digit c = true → Ascii.eqb c Py.LF = false.
Proof.
  intros Hd. destruct (Ascii.eqb_spec c Py.LF) as [->|]; [|done].
  vm_compute in Hd. discriminate.
Qed.

(** Wherever a run of digits hands over to the rest of the pattern, the
    character before the position is a digit, provided the run is not
    allowed to be empty or starts right after a digit. *)
Lemma max_repeat_digit_fails s : ∀ lo hi pv g (k : cont),
  (∀ c s' g', category_digit c = true → k (Cursor (Some c) s') g' = None) →
  (lo ≠ 0%nat ∨ ∃ c, pv = Some c ∧ category_digit c = true) →
  max_repeat category_digit lo hi pv s g k = None.
Proof.
  induction s as [|a s IH]; intros lo hi pv g k Hk Hpv.
  - simpl. destruct lo; [|by destruct hi as [[]|]].
    destruct Hpv as [|(c & -> & Hc)]; [done|].
    destruct hi as [[]|]; by apply Hk.
  - assert (Hstop : match lo with
                    | O => k (Cursor pv (String a s)) g
                    | S _ => None
                    end = None).
    { destruct lo; [|done].
      destruct Hpv as [|(c & -> & Hc)]; [done|]. by apply Hk. }
    simpl. destruct hi as [[|n]|]; [done| |].
    + destruct (category_digit a) eqn:Ha; [|done].
      rewrite IH; [done|done|]. right. eauto.
    + destruct (category_digit a) eqn:Ha; [|done].
      rewrite IH; [done|done|]. right. eauto.
Qed.

Lemma exec_Cat p q cur g k :
  exec (Cat p q) cur g k = exec p cur g (λ cur' g', exec q cur' g' k).
Proof. done. Qed.

Lemma exec_At a cur g k :
  exec (At a) cur g k = if at_ a cur then k cur g else None.
Proof. done. Qed.

(** The timecode line cannot start right after a character other than a
    newline. *)
Lemma timecodes_need_line_start c s g k :
  Ascii.eqb c Py.LF = false →
  exec ITEM_PATTERN_timecodes (Cursor (Some c) s) g k = None.
Proof.
  intros Hc. unfold ITEM_PATTERN_timecodes.
  rewrite exec_Cat, exec_At. cbn [at_ prev]. by rewrite Hc.
Qed.

(** The index line ends with [$] and the timecode line begins with [^],
    with no newline in between to consume: no position satisfies both once
    a digit has been read. *)
Lemma RE_ITEM_never_matches s : match_ RE_ITEM s = None.
Proof.
  unfold match_, RE_ITEM, ITEM_PATTERN_index.
  rewrite !exec_Cat, exec_At. cbn [at_ prev exec].
  apply max_repeat_digit_fails; [|by left].
  intros c s' g' Hc. cbn [rest].
  destruct s' as [|c' s'']; [|destruct (Ascii.eqb c' Py.LF); [|done]];
    apply timecodes_need_line_start, digit_not_LF, Hc.
Qed.

Lemma from_string_raises source :
  from_string source = Raise (Exc InvalidItem [PStr source]).
Proof. unfold from_string. by rewrite RE_ITEM_never_matches. Qed.

(** Whatever [from_string] raises is an [InvalidItem] carrying the block. *)
Lemma from_string_error source e :
  from_string source = Raise e → e = Exc InvalidItem [PStr source].
Proof. rewrite from_string_raises. congruence. Qed.

(** *** Patterns that read a fixed prefix *)
Lemma append_nil (v : string) : "" +:+ v = v.
Proof. done. Qed.

Lemma append_cons c (u v : string) : String c u +:+ v = String c (u +:+ v).
Proof. done. Qed.

Lemma append_assoc (u v w : string) : (u +:+ v) +:+ w = u +:+ (v +:+ w).
Proof.
  induction u as [|c u IH]; [done|]. by rewrite !append_cons, IH.
Qed.

Lemma advance_app pv u v : advance pv (u +:+ v) = advance (advance pv u) v.
Proof.
  revert pv. induction u as [|c u IH]; intros pv; [done|].
  rewrite append_cons. apply IH.
Qed.

Lemma length_append (u v : string) :
  String.length (u +:+ v) = (String.length u + String.length v)%nat.
Proof.
  induction u as [|c u IH]; [done|].
  rewrite append_cons. cbn [String.length]. by rewrite IH.
Qed.

Lemma take_append (u v : string) : Py.take (String.length u) (u +:+ v) = u.
Proof.
  unfold Py.take. induction u as [|c u IH]; [by destruct v|].
  rewrite append_cons. cbn [String.length substring]. by rewrite IH.
Qed.

Lemma consumed_append pv pv' u tail :
  consumed (Cursor pv (u +:+ tail)) (Cursor pv' tail) = u.
Proof.
  unfold consumed. cbn [rest]. rewrite length_append.
  replace (String.length u + String.length tail - String.length tail)%nat
    with (String.length u) by lia.
  apply take_append.
Qed.

Lemma reads_Literal c : reads (Literal c) (String c "") id.
Proof.
  intros pv tail g k. rewrite append_cons, append_nil.
  cbn. by rewrite Ascii.eqb_refl.
Qed.

Lemma reads_In cls c : cls c = true → reads (In_ cls) (String c "") id.
Proof.
  intros Hc pv tail g k. rewrite append_cons, append_nil.
  cbn. by rewrite Hc.
Qed.

Lemma reads_Cat p q u v f f' :
  reads p u f → reads q v f' → reads (Cat p q) (u +:+ v) (f' ∘ f).
Proof.
  intros Hp Hq pv tail g k.
  rewrite exec_Cat, append_assoc, Hp, Hq, advance_app. done.
Qed.

Lemma reads_Subpattern name p u f :
  reads p u f → reads (Subpattern name p) u (λ g, <[name := u]> (f g)).
Proof.
  intros Hp pv tail g k. cbn [exec]. rewrite Hp.
  by rewrite consumed_append.
Qed.

Lemma max_repeat_exact cls u : ∀ pv tail g k,
  forallb cls (list_ascii_of_string u) = true →
  max_repeat cls (String.length u) (Some (String.length u)) pv (u +:+ tail) g k
  = k (Cursor (advance pv u) tail) g.
Proof.
  induction u as [|c u IH]; intros pv tail g k Hu.
  - by destruct tail.
  - cbn in Hu. apply andb_true_iff in Hu as [Hc Hu].
    rewrite append_cons. cbn. rewrite Hc, IH by done. by destruct (k _ _).
Qed.

Lemma reads_exact cls n u :
  String.length u = n →
  forallb cls (list_ascii_of_string u) = true →
  reads (Max_repeat n (Some n) cls) u id.
Proof. intros <- Hu pv tail g k. cbn [exec prev rest]. by apply max_repeat_exact. Qed.

(** A greedy run followed by [$]: when the run [ann] cannot be extended
    and holds no newline, the only position at which the line can end is
    the one after the whole run. *)
Lemma max_repeat_line_end cls ann : ∀ pv tail g (k : cont),
  cls Py.LF = false →
  forallb cls (list_ascii_of_string ann) = true →
  match tail with String c _ => cls c = false | EmptyString => True end →
  max_repeat cls 0 None pv (ann +:+ tail) g
    (λ cur g', if at_ At_end_line cur then k cur g' else None)
  = if at_ At_end_line (Cursor (advance pv ann) tail)
    then k (Cursor (advance pv ann) tail) g else None.
Proof.
  intros pv tail g k HLF. revert pv.
  induction ann as [|c ann IH]; intros pv Hann Htail.
  - rewrite append_nil. cbn [advance]. destruct tail as [|c t]; [done|].
    cbn [max_repeat]. by rewrite Htail.
  - cbn in Hann. apply andb_true_iff in Hann as [Hc Hann].
    rewrite append_cons.
    cbn [advance max_repeat fmap option_fmap option_map Nat.pred].
    rewrite Hc, IH by done.
    destruct (at_ At_end_line (Cursor (advance (Some c) ann) tail)) eqn:Hend.
    + destruct (k _ _); [done|]. cbn [at_ rest].
      destruct (Ascii.eqb_spec c Py.LF) as [->|]; [congruence|done].
    + cbn [at_ rest].
      destruct (Ascii.eqb_spec c Py.LF) as [->|]; [congruence|done].
Qed.

(** The text accepted by [SubRipTime.parse] has the shape of the time
    pattern. *)
Lemma TIME_PATTERN_reads s x :
  SubRipTime.parse s = Some x → reads TIME_PATTERN s id.
Proof.
  unfold SubRipTime.parse. intros H.
  do 12 (destruct s as [|? s]; [done|]).
  destruct s; [|done]. cbn [list_ascii_of_string] in H.
  destruct (forallb _ _ && _ && _ && _) eqn:E; [clear H|done].
  rewrite !andb_true_iff in E. destruct E as [[[Hd H1] H2] Hsep].
  cbn [forallb] in Hd. rewrite !andb_true_iff in Hd.
  destruct Hd as (?&?&?&?&?&?&?&?&?&_).
  apply Ascii.eqb_eq in H1 as ->. apply Ascii.eqb_eq in H2 as ->.
  unfold TIME_PATTERN.
  repeat match goal with
  | |- reads (Cat (Max_repeat 2 _ _) _) (String ?a (String ?b ?r)) _ =>
      change (String a (String b r)) with (String a (String b "") +:+ r)
  | |- reads (Cat (Literal ?c) _) (String ?c ?r) _ =>
      change (String c r) with (String c "" +:+ r)
  | |- reads (Cat (In_ _) _) (String ?c ?r) _ =>
      change (String c r) with (String c "" +:+ r)
  | |- reads (Cat _ _) (_ +:+ _) _ =>
      refine (reads_Cat _ _ _ _ id id _ _)
  | |- reads (Literal _) _ _ => apply reads_Literal
  | |- reads (Max_repeat _ _ _) _ _ =>
      apply reads_exact; [done|cbn [list_ascii_of_string forallb];
                          rewrite ?andb_true_iff; by repeat split]
  | |- reads (In_ _) _ _ =>
      apply reads_In; unfold one_of; cbn [existsb]; by rewrite orb_false_r
  end.
Qed.

Lemma exec_In_cons cls pv c r g k :
  exec (In_ cls) (Cursor pv (String c r)) g k
  = if cls c then k (Cursor (Some c) r) g else None.
Proof. done. Qed.

Lemma exec_Literal_cons a pv c r g k :
  exec (Literal a) (Cursor pv (String c r)) g k
  = if Ascii.eqb c a then k (Cursor (Some c) r) g else None.
Proof. done. Qed.

Lemma timecodes_exec start end_ ann tail t1 t2 pv g (k : cont) :
  at_ At_beginning_line (Cursor pv "") = true →
  SubRipTime.parse start = Some t1 →
  SubRipTime.parse end_ = Some t2 →
  forallb annotation_class (list_ascii_of_string ann) = true →
  match tail with
  | String c _ => annotation_class c = false
  | EmptyString => True
  end →
  ∃ pv',
    exec ITEM_PATTERN_timecodes
      (Cursor pv (start +:+ " --> " +:+ end_ +:+ ann +:+ tail)) g k
    = if at_ At_end_line (Cursor pv' tail)
      then k (Cursor pv' tail) (<["end" := end_]> (<["start" := start]> g))
      else None.
Proof.
  intros Hpv H1 H2 Hann Htail. eexists.
  unfold ITEM_PATTERN_timecodes.
  rewrite exec_Cat, exec_At.
  replace (at_ At_beginning_line _) with true by (by destruct pv).
  rewrite exec_Cat.
  rewrite (reads_Subpattern "start" _ _ _ (TIME_PATTERN_reads _ _ H1)).
  rewrite !append_cons, append_nil.
  rewrite exec_Cat, exec_In_cons. cbn [category_space andb orb].
  replace (category_space " ") with true by done.
  do 3 (rewrite exec_Cat, exec_Literal_cons, Ascii.eqb_refl).
  rewrite exec_Cat, exec_In_cons.
  replace (category_space " ") with true by done.
  rewrite exec_Cat.
  rewrite (reads_Subpattern "end" _ _ _ (TIME_PATTERN_reads _ _ H2)).
  rewrite exec_Cat. cbn [exec prev rest id].
  apply (max_repeat_line_end annotation_class ann _ tail _
           (λ cur g', k cur g')); done.
Qed.

End EntryPattern.

(** ** Sorting *)
Section Sort.
Context {A : Type} (lt : A → A → bool).
Hypothesis lt_asym : ∀ x y, lt x y = true → lt y x = false.

Let le (x y : A) : Prop := lt y x = false.

Lemma sort_insert_perm x l : sort_insert lt x l ≡ₚ x :: l.
Proof.
  induction l as [|y l IH]; [done|]. cbn.
  destruct (lt y x); [|done]. rewrite IH. apply Permutation_swap.
Qed.

Lemma list_sort_perm l : list_sort lt l ≡ₚ l.
Proof.
  induction l as [|x l IH]; [done|]. cbn.
  by rewrite sort_insert_perm, IH.
Qed.

Lemma sort_insert_hd x y l :
  le y x → HdRel le y l → HdRel le y (sort_insert lt x l).
Proof.
  intros Hyx Hl. destruct l as [|z l]; cbn; [by constructor|].
  destruct (lt z x); constructor; [by inversion Hl|done].
Qed.

Lemma sort_insert_sorted x l :
  Sorted le l → Sorted le (sort_insert lt x l).
Proof.
  induction 1 as [|y l Hl IH Hhd]; cbn; [by repeat constructor|].
  destruct (lt y x) eqn:Hyx.
  - constructor; [done|]. apply sort_insert_hd; [|done]. by apply lt_asym.
  - constructor; [by constructor|]. by constructor.
Qed.

Lemma list_sort_sorted l : Sorted le (list_sort lt l).
Proof.
  induction l as [|x l IH]; cbn; [constructor|]. by apply sort_insert_sorted.
Qed.

End Sort.

(** ** Renumbering *)
Section CleanIndexes.
Import SubRipFile.

Lemma cmp_spec a b :
  (SubRipTime.cmp a b = -1 ∧ SubRipTime.ordinal a < SubRipTime.ordinal b)
  ∨ (SubRipTime.cmp a b = 0 ∧ SubRipTime.ordinal a = SubRipTime.ordinal b)
  ∨ (SubRipTime.cmp a b = 1 ∧ SubRipTime.ordinal b < SubRipTime.ordinal a).
Proof.
  unfold SubRipTime.cmp.
  destruct (Z.compare_spec (SubRipTime.ordinal a) (SubRipTime.ordinal b));
    auto.
Qed.

(** [y < x] is false exactly when [x] comes no later than [y] in the order
    by (start, end). *)
Lemma item_lt_false σ a b :
  item_lt σ b a = false ↔ entry_le (get_item σ a) (get_item σ b).
Proof.
  unfold item_lt, SubRipItem.__cmp__, entry_le.
  set (x := get_item σ a). set (y := get_item σ b).
  destruct (cmp_spec (SubRipItem.start y) (SubRipItem.start x))
    as [[-> ?]|[[-> ?]|[-> ?]]];
  destruct (cmp_spec (SubRipItem.end_ y) (SubRipItem.end_ x))
    as [[-> ?]|[[-> ?]|[-> ?]]];
  cbn; split; intros; (done || lia).
Qed.

Lemma item_lt_asym σ a b : item_lt σ a b = true → item_lt σ b a = false.
Proof.
  unfold item_lt, SubRipItem.__cmp__.
  set (x := get_item σ a). set (y := get_item σ b).
  destruct (cmp_spec (SubRipItem.start x) (SubRipItem.start y))
    as [[-> ?]|[[-> ?]|[-> ?]]];
  destruct (cmp_spec (SubRipItem.start y) (SubRipItem.start x))
    as [[-> ?]|[[-> ?]|[-> ?]]];
  destruct (cmp_spec (SubRipItem.end_ x) (SubRipItem.end_ y))
    as [[-> ?]|[[-> ?]|[-> ?]]];
  destruct (cmp_spec (SubRipItem.end_ y) (SubRipItem.end_ x))
    as [[-> ?]|[[-> ?]|[-> ?]]];
  cbn; intros; (done || lia).
Qed.

Lemma entry_le_trans : Transitive entry_le.
Proof. intros x y z. unfold entry_le. lia. Qed.

Lemma get_item_set_index σ r v r' :
  get_item (set_index σ r v) r'
  = if decide (r = r' ∧ r < length (items σ))%nat
    then SubRipItem.Make v (SubRipItem.start (get_item σ r))
           (SubRipItem.end_ (get_item σ r)) (SubRipItem.text (get_item σ r))
    else get_item σ r'.
Proof.
  unfold get_item, set_index. cbn. rewrite list_lookup_total_alter.
  by repeat case_decide.
Qed.

Lemma number_from_cons σ n r l :
  number_from σ n (r :: l) = number_from (set_index σ r (Z.of_nat n + 1)) (S n) l.
Proof. done. Qed.

(** Numbering pairwise distinct, allocated entries: the entry at position
    [i] gets the number [n + i + 1]; nothing else changes. *)
Lemma number_from_spec l : ∀ n σ,
  NoDup l →
  Forall (λ r, r < length (items σ))%nat l →
  lists (number_from σ n l) = lists σ
  ∧ stderr (number_from σ n l) = stderr σ
  ∧ length (items (number_from σ n l)) = length (items σ)
  ∧ (∀ r, r ∉ l → get_item (number_from σ n l) r = get_item σ r)
  ∧ (∀ r, SubRipItem.start (get_item (number_from σ n l) r)
          = SubRipItem.start (get_item σ r)
          ∧ SubRipItem.end_ (get_item (number_from σ n l) r)
            = SubRipItem.end_ (get_item σ r)
          ∧ SubRipItem.text (get_item (number_from σ n l) r)
            = SubRipItem.text (get_item σ r))
  ∧ (∀ i r, l !! i = Some r →
       SubRipItem.index (get_item (number_from σ n l) r) = Z.of_nat (n + i) + 1).
Proof.
  induction l as [|r0 l IH]; intros n σ Hnd Hall.
  - cbn. repeat split; intros; done.
  - apply NoDup_cons in Hnd as [Hr0 Hnd].
    apply Forall_cons in Hall as [Hlt Hall].
    rewrite number_from_cons.
    set (σ0 := set_index σ r0 (Z.of_nat n + 1)).
    assert (Hlen : length (items σ0) = length (items σ))
      by (unfold σ0, set_index; cbn; apply length_alter).
    destruct (IH (S n) σ0 Hnd) as (Hl & He & Hn & Hout & Hkeep & Hidx).
    { by rewrite Hlen. }
    assert (H0 : ∀ r, SubRipItem.start (get_item σ0 r) = SubRipItem.start (get_item σ r)
                 ∧ SubRipItem.end_ (get_item σ0 r) = SubRipItem.end_ (get_item σ r)
                 ∧ SubRipItem.text (get_item σ0 r) = SubRipItem.text (get_item σ r)).
    { intros r. unfold σ0. rewrite get_item_set_index.
      case_decide as Hd; [|done]. by destruct Hd as [-> _]. }
    repeat split.
    + by rewrite Hl.
    + by rewrite He.
    + by rewrite Hn.
    + intros r Hr. apply not_elem_of_cons in Hr as [Hne Hr].
      rewrite Hout by done. unfold σ0. rewrite get_item_set_index.
      rewrite decide_False; [done|]. intros [? _]. done.
    + destruct (Hkeep r) as (-> & _ & _). apply H0.
    + destruct (Hkeep r) as (_ & -> & _). apply H0.
    + destruct (Hkeep r) as (_ & _ & ->). apply H0.
    + intros [|i] r Hi.
      * cbn in Hi. injection Hi as <-. rewrite Hout by done.
        unfold σ0. rewrite get_item_set_index, decide_True by done.
        cbn. lia.
      * cbn in Hi. rewrite (Hidx i r Hi). lia.
Qed.

Lemma clean_indexes_unfold self σ :
  (data self < length (lists σ))%nat →
  clean_indexes self σ
  = number_from
      (set_lists σ (alter (list_sort (item_lt σ)) (data self) (lists σ))) 0
      (list_sort (item_lt σ) (get_list σ (data self))).
Proof.
  intros Hd. unfold clean_indexes, number_from, enumerate, get_list.
  cbn [lists set_lists]. by rewrite list_lookup_total_alter_eq.
Qed.

End CleanIndexes.

(** ** Time windows *)
Section Slice.
Import SubRipFile.
Variable os : platform.

Lemma filter_all {A} (P : A → Prop) `{!∀ x, Decision (P x)} (l : list A) :
  (∀ x, P x) → filter P l = l.
Proof.
  intros HP. induction l as [|x l IH]; [done|].
  by rewrite filter_cons_True, IH.
Qed.

Lemma filter_fmap {A B} (f : A → B) (P : B → Prop) `{!∀ y, Decision (P y)}
    (l : list A) :
  filter P (f <$> l) = f <$> filter (λ x, P (f x)) l.
Proof.
  induction l as [|x l IH]; [done|]. cbn [fmap list_fmap].
  rewrite !filter_cons, IH. by case_decide.
Qed.

Lemma slice_step_before σ b (proj : SubRipItem.t → SubRipTime.t) d :
  effective os b →
  slice_step os σ b (λ i v, SubRipTime.lt (proj i) v) d
  = filter (λ r, before b (proj (get_item σ r))) d.
Proof.
  intros [->|Hb]; cbn.
  - symmetry. by apply filter_all.
  - destruct b as [v|]; [|done]. unfold slice_step. rewrite Hb.
    apply list_filter_iff. intros r. cbn. unfold SubRipTime.lt.
    by rewrite Z.ltb_lt.
Qed.

Lemma slice_step_after σ b (proj : SubRipItem.t → SubRipTime.t) d :
  effective os b →
  slice_step os σ b (λ i v, SubRipTime.gt (proj i) v) d
  = filter (λ r, after b (proj (get_item σ r))) d.
Proof.
  intros [->|Hb]; cbn.
  - symmetry. by apply filter_all.
  - destruct b as [v|]; [|done]. unfold slice_step. rewrite Hb.
    apply list_filter_iff. intros r. cbn. unfold SubRipTime.gt.
    rewrite Z.gtb_ltb. by rewrite Z.ltb_lt.
Qed.

Lemma slice_step_ignored σ v test d :
  bound_truth os (Some v) = false →
  slice_step os σ (Some v) test d = slice_step os σ None test d.
Proof. intros H. unfold slice_step. by rewrite H. Qed.

End Slice.

(** ** Serialization *)
Section Write.
Import SubRipFile.
Variable os : platform.

Lemma write_loop_all enc eol σ its : ∀ io chunks,
  Forall2 (λ r bytes, encode os enc (render eol (get_item σ r)) = Ok bytes)
          its chunks →
  write_loop os enc eol σ its io = (io ++ chunks, None).
Proof.
  intros io chunks H. revert io.
  induction H as [|r bytes its chunks Hr _ IH]; intros io.
  - cbn. by rewrite app_nil_r.
  - cbn [write_loop]. unfold render in Hr.
    destruct (String.eqb eol Py.nl); cbn [negb]; rewrite Hr, IH;
      by rewrite <-app_assoc.
Qed.

End Write.

(** ** Byte-order marks *)
Section Encoding.
Import SubRipFile.

Lemma prefix_take p : ∀ n s,
  (String.length p ≤ n)%nat →
  String.prefix p (Py.take n s) = String.prefix p s.
Proof.
  unfold Py.take.
  induction p as [|c p IH]; intros n s Hn.
  { by destruct (substring 0 n s), s. }
  cbn [String.length] in Hn. destruct n as [|n]; [lia|].
  destruct s as [|a s]; [done|]. cbn [substring String.prefix].
  destruct (ascii_dec c a); [|done]. apply IH. lia.
Qed.

End Encoding.

(** ** Reading a stream *)
Section Read.
Import SubRipFile.
Variable os : platform.
Variable self : SubRipFile.t.

(** [read] is the block-by-block treatment of the blocks of the stream. *)
Lemma read_loop_blocks eh lines : ∀ pending σ,
  read_loop os self eh lines pending σ
  = handle_blocks os self eh (blocks_from lines pending) σ.
Proof.
  induction lines as [|[i line] lines IH]; intros pending σ; [done|].
  cbn [read_loop blocks_from].
  destruct (Py.str_truth (Py.strip line)); [apply IH|].
  destruct (Py.str_truth (Py.strip (Py.join pending))); [|apply IH].
  cbn [app handle_blocks].
  destruct (SubRipItem.from_string _) as [item|error].
  - cbn. apply IH.
  - destruct (decide _); [|done].
    destruct (_handle_error _ _ _ _ _ _) as [σ' [exn|]]; [done|apply IH].
Qed.

(** The number that comes with a block is the index of the blank line
    that ended it. *)
Lemma blocks_from_lines l : ∀ n q pending,
  n = length (q ++ pending) →
  Forall (λ x, ¬ blank x) pending →
  (q = [] ∨ ∃ q' z, q = q' ++ [z] ∧ blank z) →
  ∀ i b, (i, b) ∈ blocks_from (zip (seq n (length l)) l) pending →
         block_ended_at (q ++ pending ++ l) i b.
Proof.
  induction l as [|ln l IH]; intros n q pending Hn Hpending Hq i b Hin.
  { by apply elem_of_nil in Hin. }
  cbn [length seq zip zip_with blocks_from] in Hin.
  destruct (Py.str_truth (Py.strip ln)) eqn:Hln.
  - replace (q ++ pending ++ ln :: l) with (q ++ (pending ++ [ln]) ++ l)
      by (rewrite <-(app_assoc pending [ln] l); reflexivity).
    apply (IH (S n)); [|by apply Forall_app; split; [|constructor; [congruence|]]|done..].
    rewrite !length_app in *. cbn. lia.
  - apply elem_of_app in Hin as [Hin|Hin].
    + destruct (Py.str_truth (Py.strip (Py.join pending))) eqn:Hjoin;
        [|by apply elem_of_nil in Hin].
      apply list_elem_of_singleton in Hin as [= -> ->].
      assert (Hne : (0 < length pending)%nat).
      { destruct pending; [done|cbn; lia]. }
      rewrite length_app in Hn. subst n.
      exists (length q). split_and!.
      * lia.
      * exists ln. split; [|done].
        rewrite lookup_app_r by lia. rewrite lookup_app_r by lia.
        by replace (length q + length pending - length q - length pending)%nat
          with 0%nat by lia.
      * rewrite drop_app_length.
        replace (length q + length pending - length q)%nat
          with (length pending) by lia.
        by rewrite take_app_length.
      * rewrite drop_app_length.
        replace (length q + length pending - length q)%nat
          with (length pending) by lia.
        by rewrite take_app_length.
      * destruct Hq as [->|(q' & z & -> & Hz)]; [by left|right].
        exists z. split; [|done]. rewrite length_app. cbn.
        rewrite <-app_assoc. rewrite lookup_app_r by lia.
        by replace (length q' + 1 - 1 - length q')%nat with 0%nat by lia.
    + replace (q ++ pending ++ ln :: l) with ((q ++ pending ++ [ln]) ++ [] ++ l)
        by (rewrite <-!app_assoc; reflexivity).
      apply (IH (S n)); [|done| |done].
      * rewrite !length_app in *. cbn. lia.
      * right. exists (q ++ pending), ln. by rewrite <-app_assoc.
Qed.

Lemma blocks_lines stream i b :
  (i, b) ∈ blocks stream → block_ended_at (stream ++ [Py.nl]) i b.
Proof. apply (blocks_from_lines _ 0 [] []); [done|done|by left]. Qed.

Lemma read_blocks eh stream σ :
  read os self stream eh σ = handle_blocks os self eh (blocks stream) σ.
Proof. apply read_loop_blocks. Qed.

Lemma list_alter_twice {A} (f g : A → A) i (l : list A) :
  alter g i (alter f i l) = alter (g ∘ f) i l.
Proof. revert i. induction l; intros [|i]; f_equal/=; auto. Qed.

Lemma with_entries_nil σ : with_entries self [] σ = σ.
Proof.
  destruct σ as [its ls err]. unfold with_entries. cbn.
  rewrite app_nil_r. f_equal.
  apply list_alter_id. intros l. by rewrite app_nil_r.
Qed.

Lemma with_entries_cons x xs σ :
  with_entries self xs (append self (length (items σ))
                          (set_items σ (items σ ++ [x])))
  = with_entries self (x :: xs) σ.
Proof.
  destruct σ as [its ls err]. unfold with_entries, append, set_lists, set_items.
  cbn. rewrite <-app_assoc. f_equal.
  rewrite list_alter_twice. apply list_alter_ext; [|done].
  intros l _. cbn. rewrite <-app_assoc, length_app. cbn.
  by rewrite Nat.add_1_r.
Qed.

Lemma with_entries_stderr xs σ err :
  with_entries self xs (set_stderr σ err)
  = set_stderr (with_entries self xs σ) err.
Proof. done. Qed.

Lemma handle_error_log b i σ :
  _handle_error os (Exc InvalidItem [PStr b]) (Some ERROR_LOG) (path self) i σ
  = (set_stderr σ (stderr σ ++ diagnostic os (path self) i b), None).
Proof.
  unfold _handle_error, diagnostic, locator, stderr_write, set_stderr.
  cbn. by rewrite <-!app_assoc.
Qed.

Lemma handle_error_raise b i σ :
  _handle_error os (Exc InvalidItem [PStr b]) (Some ERROR_RAISE) (path self) i σ
  = (σ, Some (Exc InvalidItem
                [pyval_of_path (locator os (path self));
                 PInt (Z.of_nat i); PStr b])).
Proof. done. Qed.

Lemma handle_error_pass error eh i σ :
  eh ≠ Some ERROR_RAISE → eh ≠ Some ERROR_LOG →
  _handle_error os error eh (path self) i σ = (σ, None).
Proof. intros. unfold _handle_error. by rewrite !decide_False. Qed.

Lemma parsed_cons_ok i b item bs :
  SubRipItem.from_string b = Ok item → parsed ((i, b) :: bs) = item :: parsed bs.
Proof. intros H. unfold parsed. cbn. by rewrite H. Qed.

Lemma parsed_cons_raise i b e bs :
  SubRipItem.from_string b = Raise e → parsed ((i, b) :: bs) = parsed bs.
Proof. intros H. unfold parsed. cbn. by rewrite H. Qed.

Lemma handle_blocks_log bs : ∀ σ,
  handle_blocks os self (Some ERROR_LOG) bs σ
  = (set_stderr (with_entries self (parsed bs) σ)
       (stderr σ ++ diagnostics os (path self) bs), None).
Proof.
  induction bs as [|[i b] bs IH]; intros σ.
  - cbn. rewrite with_entries_nil, app_nil_r. by destruct σ.
  - cbn [handle_blocks]. unfold diagnostics. cbn [mbind list_bind].
    fold (diagnostics os (path self) bs). cbn [fst snd].
    destruct (SubRipItem.from_string b) as [item|error] eqn:Hb.
    + cbn [new_item]. rewrite IH, with_entries_cons.
      by rewrite (parsed_cons_ok _ _ _ _ Hb).
    + pose proof (from_string_error _ _ Hb) as ->. cbn [cls].
      rewrite decide_True by done.
      rewrite handle_error_log, IH, with_entries_stderr.
      rewrite (parsed_cons_raise _ _ _ _ Hb). cbn [set_stderr stderr].
      by rewrite app_assoc.
Qed.

Lemma handle_blocks_pass eh bs : ∀ σ,
  eh ≠ Some ERROR_RAISE → eh ≠ Some ERROR_LOG →
  handle_blocks os self eh bs σ = (with_entries self (parsed bs) σ, None).
Proof.
  intros σ H1 H2. revert σ.
  induction bs as [|[i b] bs IH]; intros σ.
  - cbn. by rewrite with_entries_nil.
  - cbn [handle_blocks].
    destruct (SubRipItem.from_string b) as [item|error] eqn:Hb.
    + cbn [new_item]. rewrite IH, with_entries_cons.
      by rewrite (parsed_cons_ok _ _ _ _ Hb).
    + pose proof (from_string_error _ _ Hb) as ->. cbn [cls].
      rewrite decide_True by done.
      rewrite handle_error_pass, IH by done.
      by rewrite (parsed_cons_raise _ _ _ _ Hb).
Qed.

Lemma handle_blocks_raise before i b e after : ∀ σ,
  Forall (λ ib, ∃ item, SubRipItem.from_string ib.2 = Ok item) before →
  SubRipItem.from_string b = Raise e →
  handle_blocks os self (Some ERROR_RAISE) (before ++ (i, b) :: after) σ
  = (with_entries self (parsed before) σ,
     Some (Exc InvalidItem
             [pyval_of_path (locator os (path self));
              PInt (Z.of_nat i); PStr b])).
Proof.
  intros σ Hbefore Hb. revert σ.
  induction Hbefore as [|[j c] before [item Hc] _ IH]; intros σ.
  - cbn [app handle_blocks]. rewrite Hb.
    pose proof (from_string_error _ _ Hb) as ->. cbn [cls].
    rewrite decide_True by done.
    by rewrite handle_error_raise, with_entries_nil.
  - cbn [app handle_blocks]. cbn [snd] in Hc. rewrite Hc.
    cbn [new_item]. rewrite IH, with_entries_cons.
    by rewrite (parsed_cons_ok _ _ _ _ Hc).
Qed.

End Read.

(** * The properties of the design document *)
Section Claims.
Import SubRipFile.

(** C1, round trip of an entry.  The design document asks that parsing the
    formatted form of an entry succeeds and gives the entry back.  The
    program does not: the pattern asks for the end of the index line and
    the start of the timecode line at one and the same position, which no
    text offers, so [from_string] raises [InvalidItem] on the formatted
    form of every entry. *)
Theorem from_string_rejects_formatted_entry (e : SubRipItem.t) :
  SubRipItem.from_string (SubRipItem.__unicode__ e)
  = Raise (Exc InvalidItem [PStr (SubRipItem.__unicode__ e)]).
Proof. apply from_string_raises. Qed.

Example hello_formatted :
  SubRipItem.__unicode__ hello
  = line "1" +:+ line "00:00:01,000 --> 00:00:02,000" +:+ line "Hello".
Proof. vm_compute. reflexivity. Qed.

(** Were the three parts of the pattern to match one after the other,
    the text group would still not give the text back: it runs to the end
    of the block and so keeps the newline that formatting adds. *)
Example text_group_keeps_final_newline :
  Re.match_ SubRipItem.ITEM_PATTERN_text (line "Hello")
  = Some (<["text" := line "Hello"]> ∅).
Proof. vm_compute. reflexivity. Qed.

Example hello_not_parsed :
  SubRipItem.from_string (SubRipItem.__unicode__ hello)
  = Raise (Exc InvalidItem
             [PStr (line "1" +:+ line "00:00:01,000 --> 00:00:02,000"
                    +:+ line "Hello")]).
Proof. vm_compute. reflexivity. Qed.

(** C2, the Log and Pass policies, as the program has them.  Under Log,
    the entries of the blocks that parse are allocated and appended to the
    aggregate in stream order, and for each block that does not parse one
    diagnostic is written to stderr: the source locator (made absolute
    when given), the zero-based index of the stream line that ended the
    block, and the text of the block.  Under Pass the same entries are
    appended and nothing is written.  Neither policy raises.  (The last
    part says what the number paired with a block is.) *)
Theorem read_log_and_pass os self stream σ :
  read os self stream (Some ERROR_LOG) σ
  = (set_stderr (with_entries self (parsed (blocks stream)) σ)
       (stderr σ ++ diagnostics os (path self) (blocks stream)), None)
  ∧ read os self stream (Some ERROR_PASS) σ
    = (with_entries self (parsed (blocks stream)) σ, None)
  ∧ (∀ i b, (i, b) ∈ blocks stream →
            block_ended_at (stream ++ [Py.nl]) i b).
Proof.
  rewrite !read_blocks. split_and!.
  - apply handle_blocks_log.
  - by apply handle_blocks_pass.
  - apply blocks_lines.
Qed.

(** C2 as stated fails: the number in a diagnostic is not the index of the
    block among the blocks.  The two blocks of [junk_stream] are blocks 0
    and 1; their diagnostics carry 1 and 4, the indices of the lines that
    ended them. *)
Lemma read_log_reports_line_index :
  let σ := (read posix subs junk_stream (Some ERROR_LOG) empty_store).1 in
  blocks junk_stream = [(1%nat, line "junk"); (4%nat, line "more junk")]
  ∧ stderr σ = diagnostic posix (path subs) 1 (line "junk")
               ++ diagnostic posix (path subs) 4 (line "more junk")
  ∧ stderr σ ≠ diagnostic posix (path subs) 0 (line "junk")
               ++ diagnostic posix (path subs) 1 (line "more junk").
Proof. vm_compute. repeat split. discriminate. Qed.

(** The three-block stream of the design document under each policy.
    Because no block is accepted as an entry (see C1), all three blocks
    are reported under Log, nothing is kept under Pass, and Raise stops at
    the first block. *)
Example three_blocks_under_each_policy :
  let log := read posix subs three_blocks (Some ERROR_LOG) empty_store in
  let pass := read posix subs three_blocks (Some ERROR_PASS) empty_store in
  let raise := read posix subs three_blocks (Some ERROR_RAISE) empty_store in
  entries log.1 subs = []
  ∧ stderr log.1 = diagnostic posix (path subs) 3 first_block
                   ++ diagnostic posix (path subs) 5 (line "garbage")
                   ++ diagnostic posix (path subs) 9 third_block
  ∧ entries pass.1 subs = [] ∧ stderr pass.1 = []
  ∧ raise.2 = Some (Exc InvalidItem
                      [PStr "/srv/subs.srt"; PInt 3; PStr first_block]).
Proof. vm_compute. repeat split. Qed.




(** C4, annotations on the timecode line.  The design document asks that
    a block whose timecode line carries annotation tokens after
    [<start> --> <end>] be accepted and the tokens discarded.  The program
    does not accept such a block: whatever the index line, the two times,
    the annotation and the text, [from_string] raises [InvalidItem], for
    the reason given under C1: the pattern asks for the end of the index
    line and the start of the timecode line at one and the same
    position. *)
Theorem from_string_rejects_annotated_block idx start end_ ann text :
  SubRipItem.from_string
    (line idx +:+ line (start +:+ " --> " +:+ end_ +:+ ann) +:+ line text)
  = Raise (Exc InvalidItem
             [PStr (line idx +:+ line (start +:+ " --> " +:+ end_ +:+ ann)
                    +:+ line text)]).
Proof. apply from_string_raises. Qed.

(** The block [1 / 00:00:01,000 --> 00:00:02,000 X1:100 Y1:200 / Hello],
    evaluated. *)
Example annotated_block_rejected :
  SubRipItem.from_string (line "1" +:+ line annotated_line +:+ line "Hello")
  = Raise (Exc InvalidItem
             [PStr (line "1" +:+ line annotated_line +:+ line "Hello")]).
Proof. vm_compute. reflexivity. Qed.

(** C5, renumbering, as the program has it.  For an aggregate whose
    entries are pairwise distinct objects, [clean_indexes] permutes the
    collection into non-decreasing order of (start, end), leaves start,
    end and text of every entry alone, and gives the entry at position i
    the index i + 1: the first index is 1 and consecutive indices differ
    by one.  (The first and third hypotheses say that the list object and
    the entries of the aggregate are objects of the store.) *)
Theorem clean_indexes_sorted_numbered self σ :
  (data self < length (lists σ))%nat →
  NoDup (get_list σ (data self)) →
  Forall (λ r, (r < length (items σ))%nat) (get_list σ (data self)) →
  let σ' := clean_indexes self σ in
  get_list σ' (data self) ≡ₚ get_list σ (data self)
  ∧ (∀ r, SubRipItem.start (get_item σ' r) = SubRipItem.start (get_item σ r)
          ∧ SubRipItem.end_ (get_item σ' r) = SubRipItem.end_ (get_item σ r)
          ∧ SubRipItem.text (get_item σ' r) = SubRipItem.text (get_item σ r))
  ∧ StronglySorted entry_le (entries σ' self)
  ∧ (∀ i x, entries σ' self !! i = Some x →
            SubRipItem.index x = Z.of_nat i + 1)
  ∧ (∀ x, entries σ' self !! 0%nat = Some x → SubRipItem.index x = 1)
  ∧ (∀ i x y, entries σ' self !! i = Some x →
              entries σ' self !! S i = Some y →
              SubRipItem.index x + 1 = SubRipItem.index y).
Proof.
  intros Hd Hnd Hall σ'.
  set (l := get_list σ (data self)) in *.
  set (l' := list_sort (item_lt σ) l).
  set (σ1 := set_lists σ (alter (list_sort (item_lt σ)) (data self) (lists σ))).
  assert (Hσ' : σ' = number_from σ1 0 l') by by apply clean_indexes_unfold.
  assert (Hperm : l' ≡ₚ l) by apply list_sort_perm.
  destruct (number_from_spec l' 0 σ1) as (Hl & _ & _ & _ & Hkeep & Hidx).
  { by rewrite Hperm. }
  { by rewrite Hperm. }
  rewrite <-Hσ' in Hl, Hkeep, Hidx.
  assert (Hl' : get_list σ' (data self) = l').
  { unfold get_list. rewrite Hl. unfold σ1. cbn [lists set_lists].
    by rewrite list_lookup_total_alter_eq. }
  assert (Hnum : ∀ i x, entries σ' self !! i = Some x →
                        SubRipItem.index x = Z.of_nat i + 1).
  { intros i x. unfold entries. rewrite Hl', list_lookup_fmap.
    destruct (l' !! i) as [r|] eqn:Hr; [|done].
    cbn. intros [= <-]. by rewrite (Hidx i r Hr). }
  split_and!.
  - by rewrite Hl'.
  - done.
  - unfold entries. rewrite Hl'.
    apply Sorted.Sorted_StronglySorted; [apply entry_le_trans|].
    apply (Sorted_fmap _ (λ a b, item_lt σ b a = false)).
    + intros a b Hab. apply item_lt_false in Hab. unfold entry_le in *.
      destruct (Hkeep a) as (-> & -> & _), (Hkeep b) as (-> & -> & _).
      done.
    + apply list_sort_sorted, item_lt_asym.
  - done.
  - intros x Hx. by rewrite (Hnum _ _ Hx).
  - intros i x y Hx Hy. rewrite (Hnum _ _ Hx), (Hnum _ _ Hy). lia.
Qed.

Lemma clean_indexes_sorted_numbered_witness :
  let σ' := clean_indexes subs two_entries in
  get_list σ' (data subs) ≡ₚ get_list two_entries (data subs)
  ∧ (∀ r, SubRipItem.start (get_item σ' r)
          = SubRipItem.start (get_item two_entries r)
          ∧ SubRipItem.end_ (get_item σ' r)
            = SubRipItem.end_ (get_item two_entries r)
          ∧ SubRipItem.text (get_item σ' r)
            = SubRipItem.text (get_item two_entries r))
  ∧ StronglySorted entry_le (entries σ' subs)
  ∧ (∀ i x, entries σ' subs !! i = Some x →
            SubRipItem.index x = Z.of_nat i + 1)
  ∧ (∀ x, entries σ' subs !! 0%nat = Some x → SubRipItem.index x = 1)
  ∧ (∀ i x y, entries σ' subs !! i = Some x →
              entries σ' subs !! S i = Some y →
              SubRipItem.index x + 1 = SubRipItem.index y).
Proof.
  apply (clean_indexes_sorted_numbered subs two_entries).
  - cbn. lia.
  - apply (bool_decide_unpack _). vm_compute. exact I.
  - apply (bool_decide_unpack _). vm_compute. exact I.
Defined.

Example clean_indexes_two_entries :
  entries (clean_indexes subs two_entries) subs
  = [ SubRipItem.Make 1 (SubRipTime.Make 1000) (SubRipTime.Make 2000) "Hello";
      SubRipItem.Make 2 (SubRipTime.Make 3500) (SubRipTime.Make 4250) "World" ].
Proof. vm_compute. reflexivity. Qed.

(** C5 as stated fails for an aggregate that holds one entry object at two
    positions: the object is numbered twice and keeps the last number, so
    the first index is 2 and consecutive indices are equal. *)
Lemma clean_indexes_shared_entry :
  SubRipItem.index <$> entries (clean_indexes subs twice) subs = [2; 2].
Proof. vm_compute. reflexivity. Qed.

(** C6, time windows, as the program has them.  When every bound is
    either absent or has a true truth value, [slice] returns a new
    aggregate, with the attributes of the source and a list object of its
    own, that holds exactly the entries of the source that satisfy every
    bound present as a strict inequality, in the order of the source; the
    entries are the same objects, and the list object and the entries of
    the source are as before.  (The first hypothesis says that the list
    object of the source is an object of the store.) *)
Theorem slice_selects os self sb sa eb ea σ :
  (data self < length (lists σ))%nat →
  effective os sb → effective os sa → effective os eb → effective os ea →
  let σ' := (slice os self sb sa eb ea σ).1 in
  let clone := (slice os self sb sa eb ea σ).2 in
  get_list σ' (data clone)
  = filter (λ r, selected sb sa eb ea (get_item σ r)) (get_list σ (data self))
  ∧ entries σ' clone = filter (selected sb sa eb ea) (entries σ self)
  ∧ data clone ≠ data self
  ∧ get_list σ' (data self) = get_list σ (data self)
  ∧ items σ' = items σ
  ∧ entries σ' self = entries σ self
  ∧ _eol clone = _eol self ∧ path clone = path self
  ∧ encoding clone = encoding self.
Proof.
  intros Hd Hsb Hsa Heb Hea. unfold slice.
  rewrite (slice_step_before os σ sb SubRipItem.start) by done.
  rewrite (slice_step_after os σ sa SubRipItem.start) by done.
  rewrite (slice_step_before os σ eb SubRipItem.end_) by done.
  rewrite (slice_step_after os σ ea SubRipItem.end_) by done.
  rewrite !list_filter_filter.
  set (d := filter _ (get_list σ (data self))).
  assert (Hsel : d = filter (λ r, selected sb sa eb ea (get_item σ r))
                            (get_list σ (data self))).
  { apply list_filter_iff. intros r. unfold selected. tauto. }
  cbn [new_list fst snd set_data data _eol path encoding].
  assert (Hnew : get_list (set_lists σ (lists σ ++ [d])) (length (lists σ)) = d).
  { unfold get_list. cbn [lists set_lists].
    rewrite lookup_total_app_r by done. by rewrite Nat.sub_diag. }
  assert (Hold : get_list (set_lists σ (lists σ ++ [d])) (data self)
                 = get_list σ (data self)).
  { unfold get_list. cbn [lists set_lists]. by rewrite lookup_total_app_l. }
  split_and!; try done.
  - by rewrite Hnew.
  - unfold entries, set_data. cbn [data]. by rewrite Hnew, Hsel, filter_fmap.
  - lia.
  - unfold entries. by rewrite Hold.
Qed.

Lemma slice_selects_witness :
  let σ' := (slice posix subs None (Some (SubRipTime.OfInt 2000)) None None
               two_entries).1 in
  let clone := (slice posix subs None (Some (SubRipTime.OfInt 2000)) None None
                  two_entries).2 in
  get_list σ' (data clone)
  = filter (λ r, selected None (Some (SubRipTime.OfInt 2000)) None None
                   (get_item two_entries r))
           (get_list two_entries (data subs))
  ∧ entries σ' clone
    = filter (selected None (Some (SubRipTime.OfInt 2000)) None None)
             (entries two_entries subs)
  ∧ data clone ≠ data subs
  ∧ get_list σ' (data subs) = get_list two_entries (data subs)
  ∧ items σ' = items two_entries
  ∧ entries σ' subs = entries two_entries subs
  ∧ _eol clone = _eol subs ∧ path clone = path subs
  ∧ encoding clone = encoding subs.
Proof.
  apply (slice_selects posix subs None (Some (SubRipTime.OfInt 2000))
           None None two_entries).
  - cbn. lia.
  - by left.
  - right. vm_compute. reflexivity.
  - by left.
  - by left.
Defined.

Example slice_starts_after :
  entries (slice posix subs None (Some (SubRipTime.OfInt 2000)) None None
             two_entries).1
          (slice posix subs None (Some (SubRipTime.OfInt 2000)) None None
             two_entries).2
  = [late].
Proof. vm_compute. reflexivity. Qed.

(** C6 as stated fails for a bound that is present with a false truth
    value.  No entry starts before time 0, yet [slice(starts_before=0)]
    returns every entry. *)
Lemma slice_zero_bound_keeps_all :
  let r := slice posix subs (Some (SubRipTime.OfInt 0)) None None None
             two_entries in
  entries r.1 r.2 = [late; hello]
  ∧ filter (selected (Some (SubRipTime.OfInt 0)) None None None)
           (entries two_entries subs) = [].
Proof. vm_compute. split; reflexivity. Qed.

(** C7, serialization.  [write_into] takes the entries in collection order,
    without sorting them.  The target encoding is the one supplied, or the
    stored one when none is supplied; the target newline convention is the
    one supplied, or the stored one (the platform's when none is stored)
    when none is supplied.  Each entry is formatted, its newlines are
    replaced by the target convention exactly when that differs from a
    single newline character ([render]), the result is encoded and
    appended to the sink. *)
Theorem write_into_serializes os self io enc eol σ chunks :
  let target_encoding :=
    match enc with
    | None => encoding self
    | Some e => if Py.str_truth e then Some e else encoding self
    end in
  let target_eol :=
    match eol with
    | None => _get_eol os self
    | Some e => if Py.str_truth e then e else _get_eol os self
    end in
  Forall2 (λ x bytes, encode os target_encoding (render target_eol x) = Ok bytes)
          (entries σ self) chunks →
  write_into os self io enc eol σ = (io ++ chunks, None).
Proof.
  intros target_encoding target_eol H. unfold write_into.
  replace (Py.or_ enc (encoding self)) with target_encoding
    by (by destruct enc as [[|??]|]).
  apply write_loop_all. unfold entries in H.
  by apply Forall2_fmap_l in H.
Qed.

Lemma write_into_serializes_witness :
  write_into posix subs ["head"] None (Some "/") two_entries
  = (["head"] ++ [ "7/00:00:03,500 --> 00:00:04,250/World/";
                   "1/00:00:01,000 --> 00:00:02,000/Hello/" ], None).
Proof.
  apply (write_into_serializes posix subs ["head"] None (Some "/") two_entries).
  constructor; [vm_compute; reflexivity|].
  constructor; [vm_compute; reflexivity|].
  constructor.
Defined.

(** C8, detection of the encoding.  When no encoding is supplied, the
    encoding is that of the first of the signatures of UTF-32LE, UTF-32BE,
    UTF-16LE, UTF-16BE and UTF-8, in this order, that starts the bytes of
    the file, and UTF-8 when none does. *)
Theorem detect_encoding_priority os path claimed content :
  Py.opt_truth claimed = false →
  file_bytes os path = Some content →
  _open_unicode_file_encoding os path claimed
  = Ok (if Py.startswith content BOM_UTF32_LE then "utf_32_le"
        else if Py.startswith content BOM_UTF32_BE then "utf_32_be"
        else if Py.startswith content BOM_UTF16_LE then "utf_16_le"
        else if Py.startswith content BOM_UTF16_BE then "utf_16_be"
        else if Py.startswith content BOM_UTF8 then "utf_8"
        else "utf_8").
Proof.
  intros Hc Hf.
  assert (_open_unicode_file_encoding os path claimed = _detect_encoding os path)
    as -> by (by destruct claimed as [[|??]|]).
  unfold _detect_encoding. rewrite Hf.
  unfold BOMS, first_bom, Py.startswith.
  rewrite !prefix_take by (vm_compute; lia).
  by repeat destruct (String.prefix _ content).
Qed.

Lemma detect_encoding_priority_witness :
  _open_unicode_file_encoding with_file "bom.srt" None = Ok "utf_32_le".
Proof.
  apply (detect_encoding_priority with_file "bom.srt" None
           (BOM_UTF32_LE +:+ "1")); vm_compute; reflexivity.
Defined.

(** C9, the newline convention.  Once the convention is set to a non-empty
    value, assignments to [eol] change nothing: after any sequence of
    them the stored value, and the value read, are the first one.  While
    the convention is unset, that is while the stored value is [None] or
    the empty string, reading [eol] gives the platform's line
    separator. *)
Theorem eol_first_value_kept os self :
  (Py.opt_truth (_eol self) = true →
   ∀ later : list (option string),
     _eol (foldl _set_eol self later) = _eol self
     ∧ Some (_get_eol os (foldl _set_eol self later)) = _eol self)
  ∧ (Py.opt_truth (_eol self) = false → _get_eol os self = linesep os).
Proof.
  split.
  - intros Hset later. revert self Hset.
    induction later as [|eol later IH]; intros self Hset.
    + cbn [foldl]. split; [done|]. unfold _get_eol.
      by destruct (_eol self) as [[|c s]|].
    + cbn [foldl].
      assert (Hkeep : _eol (_set_eol self eol) = _eol self).
      { unfold _set_eol, Py.or_. cbn. by rewrite Hset. }
      destruct (IH (_set_eol self eol)) as [H1 H2]; [by rewrite Hkeep|].
      by rewrite H1, H2.
  - intros Hunset. unfold _get_eol.
    by destruct (_eol self) as [[|c s]|].
Qed.

Lemma eol_first_value_kept_witness :
  (_eol (foldl _set_eol (Make 0%nat (Some "/") None None)
           [Some Py.nl; None; Some "x"]) = Some "/"
   ∧ Some (_get_eol posix (foldl _set_eol (Make 0%nat (Some "/") None None)
                             [Some Py.nl; None; Some "x"])) = Some "/")
  ∧ _get_eol posix (Make 0%nat (Some EmptyString) None None) = linesep posix
  ∧ _get_eol posix subs = linesep posix.
Proof.
  split; [|split].
  - apply (proj1 (eol_first_value_kept posix (Make 0%nat (Some "/") None None))).
    reflexivity.
  - apply (proj2 (eol_first_value_kept posix
                    (Make 0%nat (Some EmptyString) None None))).
    reflexivity.
  - apply (proj2 (eol_first_value_kept posix subs)). reflexivity.
Defined.

(** C10, bounds with a false truth value.  A bound that is present but
    whose truth value is false is treated by [slice] as an absent one,
    whichever of the four bounds it is. *)
Theorem slice_falsy_bound_ignored os self v sb sa eb ea σ :
  bound_truth os (Some v) = false →
  slice os self (Some v) sa eb ea σ = slice os self None sa eb ea σ
  ∧ slice os self sb (Some v) eb ea σ = slice os self sb None eb ea σ
  ∧ slice os self sb sa (Some v) ea σ = slice os self sb sa None ea σ
  ∧ slice os self sb sa eb (Some v) σ = slice os self sb sa eb None σ.
Proof.
  intros Hv. unfold slice.
  by rewrite !(slice_step_ignored os σ v) by done.
Qed.

Lemma slice_falsy_bound_ignored_witness :
  slice posix subs (Some (SubRipTime.OfInt 0)) None None None two_entries
  = slice posix subs None None None None two_entries
  ∧ slice posix subs None (Some (SubRipTime.OfInt 0)) None None two_entries
    = slice posix subs None None None None two_entries
  ∧ slice posix subs None None (Some (SubRipTime.OfInt 0)) None two_entries
    = slice posix subs None None None None two_entries
  ∧ slice posix subs None None None (Some (SubRipTime.OfInt 0)) two_entries
    = slice posix subs None None None None two_entries.
Proof.
  apply (slice_falsy_bound_ignored posix subs (SubRipTime.OfInt 0)
           None None None None two_entries).
  reflexivity.
Defined.

End Claims.

(** * Further properties of the code *)

(** ** Entries are never parsed *)
Section ReadOnThisCode.
Import SubRipFile.
Variable os : platform.
Variable self : SubRipFile.t.

Lemma parsed_nothing bs : parsed bs = [].
Proof.
  induction bs as [|[i b] bs IH]; [done|].
  by rewrite (parsed_cons_raise i b _ bs (from_string_raises b)).
Qed.

Lemma diagnostics_everything path bs :
  diagnostics os path bs = bs ≫= (λ ib, diagnostic os path ib.1 ib.2).
Proof.
  unfold diagnostics. induction bs as [|[i b] bs IH]; [done|].
  cbn [mbind list_bind]. cbn [fst snd].
  rewrite from_string_raises. f_equal. apply IH.
Qed.

Lemma handle_error_keeps_store error eh path i σ :
  items (_handle_error os error eh path i σ).1 = items σ
  ∧ lists (_handle_error os error eh path i σ).1 = lists σ.
Proof.
  unfold _handle_error. repeat case_decide; [done| |done].
  by destruct (args error) as [|[| |] ?].
Qed.

Lemma handle_blocks_keeps_store eh bs : ∀ σ,
  items (handle_blocks os self eh bs σ).1 = items σ
  ∧ lists (handle_blocks os self eh bs σ).1 = lists σ.
Proof.
  induction bs as [|[i b] bs IH]; intros σ; [done|].
  cbn [handle_blocks]. rewrite from_string_raises. cbn [cls].
  rewrite decide_True by done.
  pose proof (handle_error_keeps_store (Exc InvalidItem [PStr b]) eh
                (path self) i σ) as [Hi Hl].
  destruct (_handle_error _ _ _ _ _ _) as [σ' [exn|]]; [done|].
  cbn [fst] in Hi, Hl. destruct (IH σ') as [Hi' Hl'].
  by rewrite Hi', Hl'.
Qed.

End ReadOnThisCode.

(** ** Blank lines *)
Section BlankLines.

Lemma nl_blank : blank Py.nl.
Proof. done. Qed.

Lemma blocks_from_blank l : ∀ n,
  Forall blank l → blocks_from (zip (seq n (length l)) l) [] = [].
Proof.
  induction l as [|ln l IH]; intros n Hl; [done|].
  apply Forall_cons in Hl as [Hln Hl].
  cbn [length seq zip zip_with blocks_from]. unfold blank in Hln.
  rewrite Hln. cbn. by apply IH.
Qed.

Lemma blocks_from_trailing extra stream : ∀ n pending,
  Forall blank extra →
  blocks_from (zip (seq n (length (stream ++ extra ++ [Py.nl])))
                   (stream ++ extra ++ [Py.nl])) pending
  = blocks_from (zip (seq n (length (stream ++ [Py.nl])))
                     (stream ++ [Py.nl])) pending.
Proof.
  intros n pending Hextra. revert n pending.
  induction stream as [|ln stream IH]; intros n pending.
  - destruct Hextra as [|e extra He Hextra]; [done|].
    cbn [app length seq zip zip_with blocks_from]. unfold blank in He.
    rewrite He. replace (Py.str_truth (Py.strip Py.nl)) with false by done.
    rewrite (blocks_from_blank (extra ++ [Py.nl])); [done|].
    apply Forall_app. split; [done|]. constructor; [apply nl_blank|done].
  - cbn [app length seq zip zip_with blocks_from].
    destruct (Py.str_truth (Py.strip ln)); [apply IH|].
    f_equal. apply IH.
Qed.

End BlankLines.

(** ** The parts of the entry pattern *)
Section PatternParts.
Import Re SubRipItem.

Lemma take_all (s : string) : Py.take (String.length s) s = s.
Proof.
  unfold Py.take. induction s as [|c s IH]; [done|].
  cbn [String.length substring]. by rewrite IH.
Qed.

Lemma consumed_all pv pv' s : consumed (Cursor pv s) (Cursor pv' "") = s.
Proof.
  unfold consumed. cbn [rest String.length]. rewrite Nat.sub_0_r.
  apply take_all.
Qed.

(** Dot-star followed by the end of the string takes everything. *)
Lemma max_repeat_any_to_end s : ∀ pv g (k : cont),
  max_repeat any_all 0 None pv s g
    (λ cur g', if at_ At_end_string cur then k cur g' else None)
  = k (Cursor (advance pv s) "") g.
Proof.
  induction s as [|c s IH]; intros pv g k; [done|].
  cbn [max_repeat advance any_all fmap option_fmap option_map Nat.pred].
  rewrite IH. by destruct (k _ _).
Qed.

(** A run of at least one digit followed by the end of the line. *)
Lemma max_repeat_digits_line_end ds tail pv g (k : cont) :
  forallb category_digit (list_ascii_of_string ds) = true →
  match tail with
  | String c _ => category_digit c = false
  | EmptyString => True
  end →
  max_repeat category_digit 1 None pv (ds +:+ tail) g
    (λ cur g', if at_ At_end_line cur then k cur g' else None)
  = if Py.str_truth ds && at_ At_end_line (Cursor (advance pv ds) tail)
    then k (Cursor (advance pv ds) tail) g else None.
Proof.
  intros Hds Htail. destruct ds as [|c ds].
  - rewrite append_nil. cbn [Py.str_truth andb].
    destruct tail as [|c t]; [done|]. cbn [max_repeat]. by rewrite Htail.
  - cbn in Hds. apply andb_true_iff in Hds as [Hc Hds].
    rewrite append_cons.
    cbn [max_repeat advance fmap option_fmap option_map Nat.pred
         Py.str_truth andb].
    rewrite Hc.
    rewrite (max_repeat_line_end category_digit ds (Some c) tail g k);
      [|done..].
    by destruct (if at_ At_end_line _ then _ else _).
Qed.

Lemma max_repeat_exact_inv cls n : ∀ pv s g (k : cont) r,
  max_repeat cls n (Some n) pv s g k = Some r →
  ∃ u tail, s = u +:+ tail ∧ String.length u = n
    ∧ forallb cls (list_ascii_of_string u) = true
    ∧ k (Cursor (advance pv u) tail) g = Some r.
Proof.
  induction n as [|n IH]; intros pv s g k r H.
  - exists "", s. split_and!; try done. by destruct s.
  - destruct s as [|c s]; [done|]. cbn [max_repeat] in H.
    destruct (cls c) eqn:Hc; [|done].
    cbn [fmap option_fmap option_map Nat.pred] in H.
    destruct (max_repeat cls n (Some n) (Some c) s g k) as [r'|] eqn:Hrec;
      [|done].
    injection H as ->.
    destruct (IH _ _ _ _ _ Hrec) as (u & tail & -> & Hlen & Hu & Hk).
    exists (String c u), tail. split_and!; try done.
    + cbn. by rewrite Hlen.
    + cbn. by rewrite Hc.
Qed.

Lemma exec_TIME_PATTERN_inv pv s g (k : cont) r :
  exec TIME_PATTERN (Cursor pv s) g k = Some r →
  ∃ h1 h2 m1 m2 s1 s2 sep f1 f2 f3 tail,
    s = String h1 (String h2 (String ":" (String m1 (String m2 (String ":"
          (String s1 (String s2 (String sep
          (String f1 (String f2 (String f3 tail)))))))))))
    ∧ forallb category_digit [h1; h2; m1; m2; s1; s2; f1; f2; f3] = true
    ∧ (sep = "," ∨ sep = ".")%char.
Proof.
  unfold TIME_PATTERN. intros H. cbn [exec prev rest] in H.
  apply max_repeat_exact_inv in H as (u1 & t1 & -> & Hl1 & Hu1 & H).
  destruct u1 as [|h1 [|h2 [|??]]]; try done. cbn [rest] in H.
  destruct t1 as [|c1 t1]; [done|].
  destruct (Ascii.eqb_spec c1 ":") as [->|]; [|done].
  apply max_repeat_exact_inv in H as (u2 & t2 & -> & Hl2 & Hu2 & H).
  destruct u2 as [|m1 [|m2 [|??]]]; try done. cbn [rest] in H.
  destruct t2 as [|c2 t2]; [done|].
  destruct (Ascii.eqb_spec c2 ":") as [->|]; [|done].
  apply max_repeat_exact_inv in H as (u3 & t3 & -> & Hl3 & Hu3 & H).
  destruct u3 as [|s1 [|s2 [|??]]]; try done. cbn [rest] in H.
  destruct t3 as [|sep t3]; [done|].
  destruct (one_of [","; "."]%char sep) eqn:Hsep; [|done].
  apply max_repeat_exact_inv in H as (u4 & t4 & -> & Hl4 & Hu4 & H).
  destruct u4 as [|f1 [|f2 [|f3 [|??]]]]; try done.
  exists h1, h2, m1, m2, s1, s2, sep, f1, f2, f3, t4.
  split_and!.
  - done.
  - cbn [forallb list_ascii_of_string] in Hu1, Hu2, Hu3, Hu4 |- *.
    rewrite !andb_true_r in Hu1, Hu2, Hu3, Hu4.
    apply andb_true_iff in Hu1 as [??], Hu2 as [??], Hu3 as [??],
      Hu4 as [? [??]%andb_true_iff].
    rewrite !andb_true_iff. by split_and!.
  - unfold one_of in Hsep. cbn in Hsep. rewrite orb_false_r in Hsep.
    apply orb_true_iff in Hsep as [Hs|Hs]; apply Ascii.eqb_eq in Hs; auto.
Qed.

End PatternParts.

(** ** Sorting again, numbering again *)
Section SortAgain.
Context {A : Type} (lt : A → A → bool).

Lemma list_sort_cons (f : A → A → bool) x l :
  list_sort f (x :: l) = sort_insert f x (list_sort f l).
Proof. done. Qed.

Lemma list_sort_ext (lt' : A → A → bool) l :
  (∀ a b, lt a b = lt' a b) → list_sort lt l = list_sort lt' l.
Proof.
  intros Hext. induction l as [|x l IH]; [done|].
  rewrite !list_sort_cons, IH.
  generalize (list_sort lt' l). intros k.
  induction k as [|y k IHk]; [done|]. cbn. by rewrite Hext, IHk.
Qed.

(** A list that is in order is left as it is. *)
Lemma list_sort_sorted_id l :
  Sorted (λ a b, lt b a = false) l → list_sort lt l = l.
Proof.
  induction 1 as [|x l Hl IH Hhd]; [done|].
  rewrite list_sort_cons, IH.
  destruct Hhd as [|y l Hxy]; [done|]. cbn. by rewrite Hxy.
Qed.

(** The sort is stable: the elements of a class none of whose members is
    below another keep their order. *)
Lemma sort_insert_filter (P : A → Prop) `{!∀ x, Decision (P x)} x l :
  (∀ a b, P a → P b → lt b a = false) →
  filter P (sort_insert lt x l) = filter P (x :: l).
Proof.
  intros HP. induction l as [|y l IH]; [done|]. cbn [sort_insert].
  destruct (lt y x) eqn:Hyx; [|done].
  rewrite filter_cons, IH, !filter_cons.
  destruct (decide (P y)) as [Hy|Hy], (decide (P x)) as [Hx|Hx]; try done.
  by rewrite (HP x y Hx Hy) in Hyx.
Qed.

Lemma list_sort_filter (P : A → Prop) `{!∀ x, Decision (P x)} l :
  (∀ a b, P a → P b → lt b a = false) →
  filter P (list_sort lt l) = filter P l.
Proof.
  intros HP. induction l as [|x l IH]; [done|].
  rewrite list_sort_cons, sort_insert_filter by done.
  by rewrite !filter_cons, IH.
Qed.

End SortAgain.

Section NumberAgain.
Import SubRipFile.

Lemma set_lists_same σ : set_lists σ (lists σ) = σ.
Proof. by destruct σ. Qed.

Lemma list_alter_fixed {A} (f : A → A) i (l : list A) :
  (∀ x, l !! i = Some x → f x = x) → alter f i l = l.
Proof.
  intros Hf. rewrite <-(list_alter_id id l i) at 2 by done.
  by apply list_alter_ext.
Qed.

Lemma set_index_same σ r v :
  SubRipItem.index (get_item σ r) = v → set_index σ r v = σ.
Proof.
  intros Hv. unfold set_index.
  rewrite list_alter_fixed; [by destruct σ|].
  intros x Hx. unfold get_item in Hv.
  rewrite (list_lookup_total_correct _ _ _ Hx) in Hv.
  destruct x. cbn in *. by subst.
Qed.

Lemma number_from_fixed l : ∀ n σ,
  (∀ i r, l !! i = Some r →
          SubRipItem.index (get_item σ r) = Z.of_nat (n + i) + 1) →
  number_from σ n l = σ.
Proof.
  induction l as [|r0 l IH]; intros n σ Hidx; [done|].
  rewrite number_from_cons, set_index_same.
  - apply IH. intros i r Hi. rewrite (Hidx (S i) r Hi). lia.
  - rewrite (Hidx 0%nat r0 eq_refl). lia.
Qed.

(** What numbering leaves alone, whatever the references. *)
Lemma number_from_frame l : ∀ n σ,
  lists (number_from σ n l) = lists σ
  ∧ stderr (number_from σ n l) = stderr σ
  ∧ length (items (number_from σ n l)) = length (items σ)
  ∧ (∀ r, r ∉ l → get_item (number_from σ n l) r = get_item σ r)
  ∧ (∀ r, SubRipItem.start (get_item (number_from σ n l) r)
          = SubRipItem.start (get_item σ r)
          ∧ SubRipItem.end_ (get_item (number_from σ n l) r)
            = SubRipItem.end_ (get_item σ r)
          ∧ SubRipItem.text (get_item (number_from σ n l) r)
            = SubRipItem.text (get_item σ r)).
Proof.
  induction l as [|r0 l IH]; intros n σ; [done|].
  rewrite number_from_cons.
  destruct (IH (S n) (set_index σ r0 (Z.of_nat n + 1)))
    as (Hl & He & Hn & Hout & Hkeep).
  split_and!.
  - by rewrite Hl.
  - by rewrite He.
  - rewrite Hn. unfold set_index. cbn. apply length_alter.
  - intros r Hr. apply not_elem_of_cons in Hr as [Hne Hr].
    rewrite Hout by done. rewrite get_item_set_index.
    rewrite decide_False; [done|]. by intros [? _].
  - intros r. destruct (Hkeep r) as (-> & -> & ->).
    rewrite get_item_set_index. case_decide as Hd; [|done].
    by destruct Hd as [-> _].
Qed.

Lemma item_lt_same_times σ σ' a b :
  (∀ r, SubRipItem.start (get_item σ' r) = SubRipItem.start (get_item σ r)
        ∧ SubRipItem.end_ (get_item σ' r) = SubRipItem.end_ (get_item σ r)) →
  item_lt σ' a b = item_lt σ a b.
Proof.
  intros H. unfold item_lt, SubRipItem.__cmp__.
  destruct (H a) as [-> ->], (H b) as [-> ->]. done.
Qed.

Lemma same_key_not_lt σ a b z :
  same_key (get_item σ a) z → same_key (get_item σ b) z →
  item_lt σ b a = false.
Proof.
  intros [Ha1 Ha2] [Hb1 Hb2]. apply item_lt_false. unfold entry_le. lia.
Qed.

End NumberAgain.

(** ** Writing and windows *)
Section WriteAndSlice.
Import SubRipFile.
Variable os : platform.

Lemma write_loop_fail enc eol σ done_ r rest e : ∀ io chunks,
  Forall2 (λ x bytes, encode os enc (render eol (get_item σ x)) = Ok bytes)
          done_ chunks →
  encode os enc (render eol (get_item σ r)) = Raise e →
  write_loop os enc eol σ (done_ ++ r :: rest) io = (io ++ chunks, Some e).
Proof.
  intros io chunks H Hr. revert io.
  induction H as [|x bytes done_ chunks Hx _ IH]; intros io.
  - cbn [app write_loop]. unfold render in Hr.
    destruct (String.eqb eol Py.nl); cbn [negb]; rewrite Hr;
      by rewrite app_nil_r.
  - cbn [app write_loop]. unfold render in Hx.
    destruct (String.eqb eol Py.nl); cbn [negb]; rewrite Hx, IH;
      by rewrite <-app_assoc.
Qed.

Lemma slice_effective self sb sa eb ea σ :
  effective os sb → effective os sa → effective os eb → effective os ea →
  slice os self sb sa eb ea σ
  = (set_lists σ
       (lists σ ++ [filter (λ r, selected sb sa eb ea (get_item σ r))
                           (get_list σ (data self))]),
     set_data self (length (lists σ))).
Proof.
  intros Hsb Hsa Heb Hea. unfold slice.
  rewrite (slice_step_before os σ sb SubRipItem.start) by done.
  rewrite (slice_step_after os σ sa SubRipItem.start) by done.
  rewrite (slice_step_before os σ eb SubRipItem.end_) by done.
  rewrite (slice_step_after os σ ea SubRipItem.end_) by done.
  rewrite !list_filter_filter. cbn [new_list].
  do 4 f_equal. apply list_filter_iff. intros r. unfold selected. tauto.
Qed.

Lemma get_list_new σ d :
  get_list (set_lists σ (lists σ ++ [d])) (length (lists σ)) = d.
Proof.
  unfold get_list. cbn [lists set_lists].
  rewrite lookup_total_app_r by done. by rewrite Nat.sub_diag.
Qed.

End WriteAndSlice.

Section Extras.
Import SubRipFile.

(** X1.  [SubRipItem.from_string] accepts no text at all: for every
    source it raises [InvalidItem], and the error carries the source as it
    was given (carriage returns included). *)
Theorem from_string_always_raises (source : string) :
  SubRipItem.from_string source = Raise (Exc InvalidItem [PStr source]).
Proof.
  unfold SubRipItem.from_string. by rewrite RE_ITEM_never_matches.
Qed.

(** X2.  Whatever the stream and whatever the value of [error_handling],
    [read] allocates no entry and changes no list object: the aggregate
    holds after the read what it held before. *)
Theorem read_adds_no_entry os self stream eh σ :
  items (read os self stream eh σ).1 = items σ
  ∧ lists (read os self stream eh σ).1 = lists σ
  ∧ entries (read os self stream eh σ).1 self = entries σ self.
Proof.
  rewrite read_blocks.
  destruct (handle_blocks_keeps_store os self eh (blocks stream) σ) as [Hi Hl].
  split_and!; [done..|]. unfold entries, get_list, get_item.
  by rewrite Hi, Hl.
Qed.

(** X3.  Under the Log policy [read] reports every block of the stream,
    in stream order, one diagnostic each, and does not raise. *)
Theorem read_log_reports_every_block os self stream σ :
  read os self stream (Some ERROR_LOG) σ
  = (set_stderr σ
       (stderr σ
        ++ (blocks stream ≫= (λ ib, diagnostic os (path self) ib.1 ib.2))),
     None).
Proof.
  rewrite read_blocks, handle_blocks_log, parsed_nothing, with_entries_nil.
  by rewrite diagnostics_everything.
Qed.

(** X4.  Under the Raise policy [read] returns normally only for a stream
    without blocks; otherwise it raises at the first block, with the
    locator, the index of the line that ended that block and its text,
    and leaves the store as it was. *)
Theorem read_raise_fails_at_first_block os self stream σ :
  read os self stream (Some ERROR_RAISE) σ
  = match blocks stream with
    | [] => (σ, None)
    | (i, b) :: _ =>
        (σ, Some (Exc InvalidItem
                    [pyval_of_path (locator os (path self));
                     PInt (Z.of_nat i); PStr b]))
    end.
Proof.
  rewrite read_blocks. destruct (blocks stream) as [|[i b] bs]; [done|].
  pose proof (handle_blocks_raise os self [] i b _ bs σ
                (List.Forall_nil _) (from_string_raises b)) as H.
  cbn [app] in H. rewrite H.
  by rewrite parsed_nothing, with_entries_nil.
Qed.

(** X5.  A value of [error_handling] other than [ERROR_RAISE] and
    [ERROR_LOG] (any other integer, or the [None] that
    [SubRipFile.from_string] passes by default) makes [read] behave as
    under [ERROR_PASS]. *)
Theorem read_unknown_policy_is_pass os self stream eh σ :
  eh ≠ Some ERROR_RAISE → eh ≠ Some ERROR_LOG →
  read os self stream eh σ = read os self stream (Some ERROR_PASS) σ.
Proof.
  intros H1 H2. rewrite !read_blocks.
  by rewrite !handle_blocks_pass.
Qed.

Lemma read_unknown_policy_is_pass_witness :
  read posix subs junk_stream None empty_store
  = read posix subs junk_stream (Some ERROR_PASS) empty_store.
Proof.
  apply (read_unknown_policy_is_pass posix subs junk_stream None empty_store);
    discriminate.
Defined.

(** X6.  A stream that has only blank lines (or no line at all) holds no
    block: [read] returns normally and changes nothing, under every
    policy. *)
Theorem read_blank_stream os self stream eh σ :
  Forall blank stream → read os self stream eh σ = (σ, None).
Proof.
  intros Hs. rewrite read_blocks. unfold blocks, enumerate.
  rewrite blocks_from_blank; [done|].
  apply Forall_app. split; [done|]. constructor; [apply nl_blank|done].
Qed.

Lemma read_blank_stream_witness :
  read posix subs [line ""; line "  "; ""] (Some ERROR_RAISE) empty_store
  = (empty_store, None).
Proof.
  apply (read_blank_stream posix subs [line ""; line "  "; ""]
           (Some ERROR_RAISE) empty_store).
  repeat constructor.
Defined.

(** X7.  Blank lines after the last line of a stream change nothing: the
    blocks, the numbers reported for them and the outcome of [read] are
    the same with and without them. *)
Theorem read_ignores_trailing_blank_lines os self stream extra eh σ :
  Forall blank extra →
  blocks (stream ++ extra) = blocks stream
  ∧ read os self (stream ++ extra) eh σ = read os self stream eh σ.
Proof.
  intros Hextra.
  assert (Hb : blocks (stream ++ extra) = blocks stream).
  { unfold blocks, enumerate. rewrite <-(app_assoc stream extra).
    by apply blocks_from_trailing. }
  split; [done|]. by rewrite !read_blocks, Hb.
Qed.

Lemma read_ignores_trailing_blank_lines_witness :
  blocks (junk_stream ++ [line ""; line " "]) = blocks junk_stream
  ∧ read posix subs (junk_stream ++ [line ""; line " "]) (Some ERROR_LOG)
         empty_store
    = read posix subs junk_stream (Some ERROR_LOG) empty_store.
Proof.
  apply (read_ignores_trailing_blank_lines posix subs junk_stream
           [line ""; line " "] (Some ERROR_LOG) empty_store).
  repeat constructor.
Defined.

(** X8.  When the codec refuses the text of an entry, [write_into] stops
    there with the codec's error: the sink has received the chunks of the
    entries before it, and nothing of that entry or of the later ones. *)
Theorem write_into_stops_at_first_failure
    os self io enc eol σ done_ r rest chunks e :
  let target_encoding :=
    match enc with
    | None => encoding self
    | Some e => if Py.str_truth e then Some e else encoding self
    end in
  let target_eol :=
    match eol with
    | None => _get_eol os self
    | Some e => if Py.str_truth e then e else _get_eol os self
    end in
  get_list σ (data self) = done_ ++ r :: rest →
  Forall2 (λ x bytes,
             encode os target_encoding (render target_eol (get_item σ x))
             = Ok bytes) done_ chunks →
  encode os target_encoding (render target_eol (get_item σ r)) = Raise e →
  write_into os self io enc eol σ = (io ++ chunks, Some e).
Proof.
  intros target_encoding target_eol Hl Hdone Hr. unfold write_into.
  replace (Py.or_ enc (encoding self)) with target_encoding
    by (by destruct enc as [[|??]|]).
  rewrite Hl. by apply write_loop_fail.
Qed.

Lemma write_into_stops_at_first_failure_witness :
  write_into ascii_codec subs [] None None three_entries
  = ([] ++ [SubRipItem.__unicode__ hello],
     Some (Exc UnicodeError [PStr (SubRipItem.__unicode__ accented)])).
Proof.
  apply (write_into_stops_at_first_failure ascii_codec subs [] None None
           three_entries [0%nat] 1%nat [2%nat]).
  - reflexivity.
  - constructor; [vm_compute; reflexivity|constructor].
  - vm_compute. reflexivity.
Defined.

(** X9.  Slicing a slice is slicing once with both sets of bounds: the
    entries of the second slice are the entries of the source that
    satisfy the bounds of both calls, in the order of the source.  (All
    bounds absent or with a true truth value.) *)
Theorem slice_of_slice os self sb sa eb ea sb' sa' eb' ea' σ :
  effective os sb → effective os sa → effective os eb → effective os ea →
  effective os sb' → effective os sa' → effective os eb' → effective os ea' →
  let first := slice os self sb sa eb ea σ in
  let second := slice os first.2 sb' sa' eb' ea' first.1 in
  entries second.1 second.2
  = filter (λ x, selected sb sa eb ea x ∧ selected sb' sa' eb' ea' x)
           (entries σ self).
Proof.
  intros H1 H2 H3 H4 H5 H6 H7 H8. cbn zeta.
  rewrite (slice_effective os self sb sa eb ea σ) by done. cbn [fst snd].
  rewrite slice_effective by done. cbn [fst snd].
  unfold entries. cbn [data set_data].
  rewrite get_list_new. cbn [data lists set_lists].
  rewrite get_list_new.
  rewrite list_filter_filter, filter_fmap.
  f_equal. apply list_filter_iff. intros r. unfold get_item. cbn. tauto.
Qed.

Lemma slice_of_slice_witness :
  let first := slice posix subs None (Some (SubRipTime.OfInt 500)) None None
                 two_entries in
  let second := slice posix first.2 (Some (SubRipTime.OfInt 3000)) None None
                  None first.1 in
  entries second.1 second.2
  = filter (λ x, selected None (Some (SubRipTime.OfInt 500)) None None x
                 ∧ selected (Some (SubRipTime.OfInt 3000)) None None None x)
           (entries two_entries subs).
Proof.
  apply (slice_of_slice posix subs None (Some (SubRipTime.OfInt 500)) None None
           (Some (SubRipTime.OfInt 3000)) None None None two_entries);
    first [by left | right; vm_compute; reflexivity].
Defined.



(** X11.  [clean_indexes] is idempotent on an aggregate of pairwise
    distinct entries: a second call changes nothing. *)
Theorem clean_indexes_idempotent self σ :
  (data self < length (lists σ))%nat →
  NoDup (get_list σ (data self)) →
  Forall (λ r, (r < length (items σ))%nat) (get_list σ (data self)) →
  clean_indexes self (clean_indexes self σ) = clean_indexes self σ.
Proof.
  intros Hd Hnd Hall.
  set (l := get_list σ (data self)) in *.
  set (l' := list_sort (item_lt σ) l).
  set (σ1 := set_lists σ (alter (list_sort (item_lt σ)) (data self) (lists σ))).
  assert (Hσ' : clean_indexes self σ = number_from σ1 0 l')
    by by apply clean_indexes_unfold.
  assert (Hperm : l' ≡ₚ l) by apply list_sort_perm.
  destruct (number_from_spec l' 0 σ1) as (Hl & _ & _ & _ & Hkeep & Hidx).
  { by rewrite Hperm. }
  { by rewrite Hperm. }
  rewrite <-Hσ' in Hl, Hkeep, Hidx.
  set (σ' := clean_indexes self σ) in *.
  assert (Hl' : lists σ' !! data self = Some l').
  { rewrite Hl. unfold σ1. cbn [lists set_lists].
    rewrite list_lookup_alter_eq.
    rewrite (list_lookup_lookup_total_lt (lists σ) (data self)) by done.
    done. }
  assert (Hsort : list_sort (item_lt σ') l' = l').
  { rewrite (list_sort_ext (item_lt σ') (item_lt σ)).
    - apply list_sort_sorted_id, list_sort_sorted, item_lt_asym.
    - intros a b. apply item_lt_same_times. intros r.
      destruct (Hkeep r) as (-> & -> & _). done. }
  assert (Halt : alter (list_sort (item_lt σ')) (data self) (lists σ')
                 = lists σ').
  { apply list_alter_fixed. intros x Hx.
    assert (Hxl : Some x = Some l')
      by (etrans; [symmetry; exact Hx|exact Hl']).
    injection Hxl as ->. exact Hsort. }
  unfold clean_indexes at 1. rewrite Halt, set_lists_same.
  change (foldl _ σ' (enumerate (get_list σ' (data self))))
    with (number_from σ' 0 (get_list σ' (data self))).
  unfold get_list. rewrite (list_lookup_total_correct _ _ _ Hl').
  by apply number_from_fixed.
Qed.

Lemma clean_indexes_idempotent_witness :
  clean_indexes subs (clean_indexes subs two_entries)
  = clean_indexes subs two_entries.
Proof.
  apply (clean_indexes_idempotent subs two_entries).
  - cbn. lia.
  - apply (bool_decide_unpack _). vm_compute. exact I.
  - apply (bool_decide_unpack _). vm_compute. exact I.
Defined.

(** X12.  [clean_indexes] keeps ties in place: the entries that have the
    same start and the same end as a given entry come out in the order
    they had in the collection. *)
Theorem clean_indexes_stable self σ z :
  filter (λ r, same_key (get_item σ r) z)
         (get_list (clean_indexes self σ) (data self))
  = filter (λ r, same_key (get_item σ r) z) (get_list σ (data self)).
Proof.
  unfold clean_indexes.
  set (σ1 := set_lists σ (alter (list_sort (item_lt σ)) (data self) (lists σ))).
  change (foldl _ σ1 (enumerate (get_list σ1 (data self))))
    with (number_from σ1 0 (get_list σ1 (data self))).
  destruct (number_from_frame (get_list σ1 (data self)) 0 σ1) as (Hl & _).
  unfold get_list at 1. rewrite Hl. unfold σ1. cbn [lists set_lists].
  rewrite list_lookup_total_alter. case_decide; [|done].
  apply list_sort_filter. intros a b Ha Hb.
  by apply (same_key_not_lt σ a b z).
Qed.

Example clean_indexes_keeps_ties :
  entries (clean_indexes subs with_tie) subs
  = [ SubRipItem.Make 1 (SubRipTime.Make 1000) (SubRipTime.Make 2000) "Again";
      SubRipItem.Make 2 (SubRipTime.Make 1000) (SubRipTime.Make 2000) "Hello";
      SubRipItem.Make 3 (SubRipTime.Make 3500) (SubRipTime.Make 4250) "World" ].
Proof. vm_compute. reflexivity. Qed.

(** X13.  [clean_indexes] touches nothing but the order of its own
    collection and the index of its own entries: stderr, the number of
    objects, every other list object, every entry outside the
    aggregate, and start, end and text of every entry are as before. *)
Theorem clean_indexes_frame self σ :
  let σ' := clean_indexes self σ in
  stderr σ' = stderr σ
  ∧ length (items σ') = length (items σ)
  ∧ length (lists σ') = length (lists σ)
  ∧ (∀ k, k ≠ data self → get_list σ' k = get_list σ k)
  ∧ (∀ r, r ∉ get_list σ (data self) → get_item σ' r = get_item σ r)
  ∧ (∀ r, SubRipItem.start (get_item σ' r) = SubRipItem.start (get_item σ r)
          ∧ SubRipItem.end_ (get_item σ' r) = SubRipItem.end_ (get_item σ r)
          ∧ SubRipItem.text (get_item σ' r) = SubRipItem.text (get_item σ r)).
Proof.
  cbn zeta. unfold clean_indexes.
  set (σ1 := set_lists σ (alter (list_sort (item_lt σ)) (data self) (lists σ))).
  change (foldl _ σ1 (enumerate (get_list σ1 (data self))))
    with (number_from σ1 0 (get_list σ1 (data self))).
  destruct (number_from_frame (get_list σ1 (data self)) 0 σ1)
    as (Hl & He & Hn & Hout & Hkeep).
  assert (Hmem : ∀ r, r ∈ get_list σ1 (data self) → r ∈ get_list σ (data self)).
  { intros r. unfold get_list, σ1. cbn [lists set_lists].
    rewrite list_lookup_total_alter. case_decide; [|done].
    by rewrite list_sort_perm. }
  split_and!.
  - by rewrite He.
  - by rewrite Hn.
  - transitivity (length (lists σ1)); [by f_equal|apply length_alter].
  - intros k Hk. unfold get_list at 1. rewrite Hl.
    unfold σ1, get_list. cbn [lists set_lists].
    by rewrite list_lookup_total_alter_ne.
  - intros r Hr. rewrite Hout; [done|]. intros Hin. by apply Hr, Hmem.
  - intros r. apply Hkeep.
Qed.

(** X14.  [__cmp__] is a three-way comparison on the pair (start, end)
    alone: it returns -1, 0 or 1, swapping the arguments negates it, it is
    0 exactly when both times coincide, and it is negative exactly when
    the first entry comes strictly before the second; index and text play
    no part. *)
Theorem cmp_three_way a b :
  (SubRipItem.__cmp__ a b = -1 ∨ SubRipItem.__cmp__ a b = 0
   ∨ SubRipItem.__cmp__ a b = 1)
  ∧ SubRipItem.__cmp__ b a = - SubRipItem.__cmp__ a b
  ∧ (SubRipItem.__cmp__ a b = 0 ↔ same_key a b)
  ∧ (SubRipItem.__cmp__ a b < 0 ↔ ¬ entry_le b a)
  ∧ (∀ i i' t t',
       SubRipItem.__cmp__
         (SubRipItem.Make i (SubRipItem.start a) (SubRipItem.end_ a) t)
         (SubRipItem.Make i' (SubRipItem.start b) (SubRipItem.end_ b) t')
       = SubRipItem.__cmp__ a b).
Proof.
  unfold SubRipItem.__cmp__, same_key, entry_le.
  cbn [SubRipItem.start SubRipItem.end_].
  destruct (cmp_spec (SubRipItem.start a) (SubRipItem.start b))
    as [[-> ?]|[[-> ?]|[-> ?]]];
  destruct (cmp_spec (SubRipItem.start b) (SubRipItem.start a))
    as [[-> ?]|[[-> ?]|[-> ?]]];
  try (exfalso; lia);
  destruct (cmp_spec (SubRipItem.end_ a) (SubRipItem.end_ b))
    as [[-> ?]|[[-> ?]|[-> ?]]];
  destruct (cmp_spec (SubRipItem.end_ b) (SubRipItem.end_ a))
    as [[-> ?]|[[-> ?]|[-> ?]]];
  try (exfalso; lia);
  cbn; split_and!; try done; try lia; try (split; intros; lia); auto.
Qed.

(** X15.  The newline convention read from an aggregate is the first
    non-empty value among the one it was built with and those assigned to
    [eol] since, in this order, and the platform's line separator when
    there is none. *)
Theorem eol_is_first_set os self (later : list (option string)) :
  _get_eol os (foldl _set_eol self later)
  = default (linesep os) (first_set (_eol self :: later)).
Proof.
  revert self. induction later as [|e later IH]; intros self.
  - cbn. unfold _get_eol. by destruct (_eol self) as [[|??]|].
  - cbn [foldl]. rewrite IH. f_equal.
    cbn [first_set _set_eol _eol]. unfold Py.or_.
    by destruct (Py.opt_truth (_eol self)) eqn:E; rewrite ?E.
Qed.

(** X16.  The text part of the entry pattern takes whatever is left of
    the block: matched at the start of a line, it binds the group [text]
    to the whole remaining text, newlines and final newline included. *)
Theorem text_part_takes_everything (s : string) :
  Re.match_ SubRipItem.ITEM_PATTERN_text s = Some (<["text" := s]> ∅).
Proof.
  unfold Re.match_, SubRipItem.ITEM_PATTERN_text.
  rewrite exec_Cat, exec_At. cbn [Re.at_ Re.prev].
  rewrite exec_Cat. cbn [Re.exec Re.prev Re.rest].
  pose proof (max_repeat_any_to_end s None ∅
                (λ cur (g' : Re.groups),
                   Some (insert "text" (Re.consumed (Re.Cursor None s) cur) g')))
    as H.
  cbn beta in H. rewrite consumed_all in H. exact H.
Qed.

(** X17.  The index part of the entry pattern accepts a first line made
    of decimal digits only, at least one, and binds the group [index] to
    them: with [ds] the longest run of digits at the start of the block,
    the part matches exactly when [ds] is not empty and is followed by a
    newline or by the end of the block.  A sign, a space or any other
    character on the index line makes it fail. *)
Theorem index_part_is_digits ds tail :
  forallb Re.category_digit (list_ascii_of_string ds) = true →
  match tail with
  | String c _ => Re.category_digit c = false
  | EmptyString => True
  end →
  Re.match_ SubRipItem.ITEM_PATTERN_index (ds +:+ tail)
  = if Py.str_truth ds && Re.at_ Re.At_end_line (Re.Cursor None tail)
    then Some (<["index" := ds]> ∅) else None.
Proof.
  intros Hds Htail. unfold Re.match_, SubRipItem.ITEM_PATTERN_index.
  rewrite exec_Cat, exec_At. cbn [Re.at_ Re.prev].
  rewrite exec_Cat. cbn [Re.exec Re.prev Re.rest].
  pose proof (max_repeat_digits_line_end ds tail None ∅
                (λ cur (g' : Re.groups),
                   Some (insert "index"
                           (Re.consumed (Re.Cursor None (ds +:+ tail)) cur) g'))
                Hds Htail) as H.
  cbn beta in H. rewrite consumed_append in H.
  etrans; [exact H|]. by destruct ds, tail.
Qed.

Lemma index_part_is_digits_witness :
  Re.match_ SubRipItem.ITEM_PATTERN_index ("12" +:+ line "" +:+ "rest")
  = Some (<["index" := "12"]> ∅).
Proof.
  apply (index_part_is_digits "12" (line "" +:+ "rest")); vm_compute; done.
Defined.

(** X18.  The time pattern matches at the start of a text exactly when the
    text starts with two digits, a colon, two digits, a colon, two
    digits, a comma or a period, and three digits. *)
Theorem time_pattern_shape (s : string) :
  is_Some (Re.match_ SubRipItem.TIME_PATTERN s)
  ↔ ∃ h1 h2 m1 m2 s1 s2 sep f1 f2 f3 tail,
      s = String h1 (String h2 (String ":" (String m1 (String m2 (String ":"
            (String s1 (String s2 (String sep
            (String f1 (String f2 (String f3 tail)))))))))))
      ∧ forallb Re.category_digit [h1; h2; m1; m2; s1; s2; f1; f2; f3] = true
      ∧ (sep = "," ∨ sep = ".")%char.
Proof.
  split.
  - intros [r Hr]. unfold Re.match_ in Hr.
    by apply exec_TIME_PATTERN_inv in Hr.
  - intros (h1 & h2 & m1 & m2 & s1 & s2 & sep & f1 & f2 & f3 & tail
            & -> & Hd & Hsep).
    set (u := String h1 (String h2 (String ":" (String m1 (String m2
              (String ":" (String s1 (String s2 (String sep
              (String f1 (String f2 (String f3 "")))))))))))).
    assert (Hparse : is_Some (SubRipTime.parse u)).
    { unfold SubRipTime.parse, u. cbn [list_ascii_of_string].
      unfold Re.category_digit in Hd. rewrite Hd. cbn.
      destruct Hsep as [-> | ->]; by eexists. }
    destruct Hparse as [t Ht].
    unfold Re.match_.
    change (String h1 _) with (u +:+ tail).
    rewrite (TIME_PATTERN_reads u t Ht). by eexists.
Qed.

(** X19.  The constructor copies the list it is given: the new aggregate
    holds the same entries in a list object of its own, so appending to
    the aggregate leaves the list handed over as it was. *)
Theorem constructor_copies_the_list r eol pth enc σ x :
  (r < length (lists σ))%nat →
  let built := __init__ (Some r) eol pth enc σ in
  get_list built.1 (data built.2) = get_list σ r
  ∧ data built.2 ≠ r
  ∧ get_list (append built.2 x built.1) r = get_list σ r
  ∧ get_list (append built.2 x built.1) (data built.2) = get_list σ r ++ [x]
  ∧ _eol built.2 = eol ∧ path built.2 = pth ∧ encoding built.2 = enc.
Proof.
  intros Hr. cbn zeta. unfold __init__. cbn [new_list fst snd data].
  split_and!; try done.
  - apply get_list_new.
  - lia.
  - unfold append, get_list. cbn [lists set_lists data].
    rewrite list_lookup_total_alter_ne by lia.
    by rewrite lookup_total_app_l.
  - unfold append, get_list. cbn [lists set_lists data].
    rewrite list_lookup_total_alter_eq by (rewrite length_app; cbn; lia).
    rewrite lookup_total_app_r by done. by rewrite Nat.sub_diag.
Qed.

Lemma constructor_copies_the_list_witness :
  let built := __init__ (Some 0%nat) None None (Some "utf-8") two_entries in
  get_list built.1 (data built.2) = get_list two_entries 0%nat
  ∧ data built.2 ≠ 0%nat
  ∧ get_list (append built.2 0%nat built.1) 0%nat = get_list two_entries 0%nat
  ∧ get_list (append built.2 0%nat built.1) (data built.2)
    = get_list two_entries 0%nat ++ [0%nat]
  ∧ _eol built.2 = None ∧ path built.2 = None
  ∧ encoding built.2 = Some "utf-8".
Proof.
  apply (constructor_copies_the_list 0%nat None None (Some "utf-8")
           two_entries 0%nat).
  cbn. lia.
Defined.

(** X20.  [SubRipFile.from_string] called without [error_handling] never
    raises on a block and writes nothing to stderr: it returns the
    aggregate it built, holding the entries of [items] followed by the
    entries of the blocks of the source that parse. *)
Theorem from_string_default_policy os source items eol path enc σ :
  let built := __init__ items eol path enc σ in
  from_string os source None items eol path enc σ
  = (with_entries built.2 (parsed (blocks (Py.splitlines source))) built.1,
     Ok built.2)
  ∧ stderr (from_string os source None items eol path enc σ).1 = stderr σ.
Proof.
  cbn zeta. unfold from_string.
  destruct (__init__ items eol path enc σ) as [σ1 f] eqn:Hinit.
  rewrite read_blocks, handle_blocks_pass by done. cbn [fst snd].
  split; [done|]. unfold __init__ in Hinit. cbn in Hinit.
  by injection Hinit as <- <-.
Qed.

(** X21.  Writing a slice writes the selected entries of the source, and
    only those, in the order of the source, under the encoding and the
    newline convention of the source when none is supplied.  (All bounds
    absent or with a true truth value; the codec accepts each text.) *)
Theorem write_of_slice os self sb sa eb ea io enc eol σ chunks :
  let target_encoding :=
    match enc with
    | None => encoding self
    | Some e => if Py.str_truth e then Some e else encoding self
    end in
  let target_eol :=
    match eol with
    | None => _get_eol os self
    | Some e => if Py.str_truth e then e else _get_eol os self
    end in
  effective os sb → effective os sa → effective os eb → effective os ea →
  Forall2 (λ x bytes, encode os target_encoding (render target_eol x) = Ok bytes)
          (filter (selected sb sa eb ea) (entries σ self)) chunks →
  let sliced := slice os self sb sa eb ea σ in
  write_into os sliced.2 io enc eol sliced.1 = (io ++ chunks, None).
Proof.
  intros target_encoding target_eol H1 H2 H3 H4 H. cbn zeta.
  rewrite slice_effective by done. cbn [fst snd]. unfold write_into.
  cbn [set_data encoding data].
  replace (Py.or_ enc (encoding self)) with target_encoding
    by (by destruct enc as [[|??]|]).
  rewrite get_list_new.
  apply write_loop_all. unfold entries in H.
  rewrite filter_fmap in H. by apply Forall2_fmap_l in H.
Qed.

Lemma write_of_slice_witness :
  let sliced := slice posix subs None (Some (SubRipTime.OfInt 2000)) None None
                  two_entries in
  write_into posix sliced.2 [] None (Some "/") sliced.1
  = ([] ++ ["7/00:00:03,500 --> 00:00:04,250/World/"], None).
Proof.
  apply (write_of_slice posix subs None (Some (SubRipTime.OfInt 2000))
           None None [] None (Some "/") two_entries).
  - by left.
  - right. vm_compute. reflexivity.
  - by left.
  - by left.
  - replace (filter _ (entries two_entries subs)) with [late]
      by (vm_compute; reflexivity).
    constructor; [vm_compute; reflexivity|constructor].
Defined.

(** X22.  The part of the entry pattern that reads the timecode line,
    matched on its own, accepts [<start> --> <end>] followed by a run of
    characters taken from the space, [X], [Y], the colon and the decimal
    digits, and by nothing else before the end of the line; it binds the
    groups [start] and [end] only, so the run leaves no trace.  ([tail]
    is what follows the longest such run: the line is accepted exactly
    when [tail] is empty or starts with a newline.) *)
Theorem timecode_line_annotations start end_ ann tail t1 t2 :
  SubRipTime.parse start = Some t1 →
  SubRipTime.parse end_ = Some t2 →
  forallb SubRipItem.annotation_class (list_ascii_of_string ann) = true →
  match tail with
  | String c _ => SubRipItem.annotation_class c = false
  | EmptyString => True
  end →
  Re.match_ SubRipItem.ITEM_PATTERN_timecodes
    (start +:+ " --> " +:+ end_ +:+ ann +:+ tail)
  = if Re.at_ Re.At_end_line (Re.Cursor None tail)
    then Some (<["end" := end_]> (<["start" := start]> ∅))
    else None.
Proof.
  intros H1 H2 Hann Htail. unfold Re.match_.
  destruct (timecodes_exec start end_ ann tail t1 t2 None ∅
              (λ _ g, Some g)) as [pv' ->]; done.
Qed.

Lemma timecode_line_annotations_witness :
  Re.match_ SubRipItem.ITEM_PATTERN_timecodes
    ("00:00:01,000" +:+ " --> " +:+ "00:00:02,000" +:+ " X1:100 Y1:200"
     +:+ line "" +:+ line "Hello")
  = Some (<["end" := "00:00:02,000"]> (<["start" := "00:00:01,000"]> ∅)).
Proof.
  apply (timecode_line_annotations "00:00:01,000" "00:00:02,000"
           " X1:100 Y1:200" (line "" +:+ line "Hello")
           (SubRipTime.Make 1000) (SubRipTime.Make 2000));
    vm_compute; reflexivity.
Defined.

Example annotated_line_accepted :
  Re.match_ SubRipItem.ITEM_PATTERN_timecodes
    (line annotated_line +:+ line "Hello")
  = Some (<["end" := "00:00:02,000"]> (<["start" := "00:00:01,000"]> ∅)).
Proof. vm_compute. reflexivity. Qed.

(** A token made of letters other than [X] and [Y] is not in that class:
    the timecode part of the pattern does not accept it, and [from_string]
    rejects the block as it rejects every block. *)
Lemma letters_annotation_rejected :
  Re.match_ SubRipItem.ITEM_PATTERN_timecodes (line worded_line +:+ line "Hello")
  = None
  ∧ SubRipItem.from_string (line "1" +:+ line worded_line +:+ line "Hello")
    = Raise (Exc InvalidItem
               [PStr (line "1" +:+ line worded_line +:+ line "Hello")]).
Proof. vm_compute. split; reflexivity. Qed.

End Extras.
